(** * Actor-critic agent of [ch8/deep_ac_agent.py]

    A shallow embedding of the learning core of the script: the observation
    and action adapters, the Gaussian policy wrapper, the n-step return and
    loss calculator, the one-step TD update and the n-step training loop.

    Numbers.  Tensor entries, rewards, the discount and the loss are real
    numbers: the arithmetic of the script is read in exact arithmetic, and
    rounding of the 32-bit tensors is outside the model.

    Collaborators.  The network, the optimizer, the sampler, the density of
    the distribution and the simulation environment are not part of the
    script; they are the fields of the class [Collaborators] below. *)

From Stdlib Require Import Reals Lra Lia Arith Bool ZArith String List.
Import ListNotations.
Open Scope R_scope.

(** ** Python results *)

Inductive exn : Type :=
| TypeError
| IndexError
| ValueError
| RuntimeError
| AttributeError.

Inductive result (A : Type) : Type :=
| Ok (a : A)
| Raise (e : exn).
Arguments Ok {A} a.
Arguments Raise {A} e.

Definition rbind {A B : Type} (r : result A) (k : A -> result B) : result B :=
  match r with
  | Ok a => k a
  | Raise e => Raise e
  end.

(** ** Arrays: a shape and the row-major contents *)

Record ndarray (A : Type) : Type := mk_array {
  shape : list nat;
  data : list A
}.
Arguments mk_array {A} shape data.
Arguments shape {A} n.
Arguments data {A} n.

(** A torch tensor of floats. *)
Definition tensor : Type := ndarray R.

Definition numel (s : list nat) : nat := fold_right Nat.mul 1%nat s.

Definition rank {A : Type} (a : ndarray A) : nat := length (shape a).

(** An array is well formed when its contents fill its shape. *)
Definition well_formed {A : Type} (a : ndarray A) : Prop :=
  length (data a) = numel (shape a).

(** [np.reshape(a, s)]: the same row-major contents under another shape.
    numpy raises unless [s] has as many cells as [a]; preproc_obs only
    permutes the three dimensions, so the check passes there
    (lemma [numel_permuted] below) and the model leaves it out. *)
Definition np_reshape {A : Type} (a : ndarray A) (s : list nat) : ndarray A :=
  mk_array s (data a).

(** [-(-n // d)], the ceiling of n / d. *)
Definition ceil_div (n d : nat) : nat := ((n + d - 1) / d)%nat.

(** [np.resize(a, new_shape)]: the flattened contents, repeated as often as
    needed and cut to the new size; zeros when either side is empty. *)
Definition np_resize {A : Type} (zero : A) (a : ndarray A) (new_shape : list nat)
  : ndarray A :=
  let flat := data a in
  let new_size := numel new_shape in
  if (length flat =? 0)%nat || (new_size =? 0)%nat
  then mk_array new_shape (repeat zero new_size)
  else
    let repeats := ceil_div new_size (length flat) in
    mk_array new_shape (firstn new_size (concat (repeat flat repeats))).

(** [t.unsqueeze(0)] *)
Definition unsqueeze0 {A : Type} (t : ndarray A) : ndarray A :=
  mk_array (1%nat :: shape t) (data t).

(** [t.squeeze()]: every dimension of size 1 is dropped. *)
Definition squeeze {A : Type} (t : ndarray A) : ndarray A :=
  mk_array (filter (fun d => negb (d =? 1)%nat) (shape t)) (data t).

(** [t.float()] on entries that are already numbers. *)
Definition float (t : ndarray R) : tensor := t.

(** What [preproc_obs] can be handed at run time: a numpy array (what the
    environment returns) or a torch tensor (what preproc_obs returns). *)
Inductive pyobj : Type :=
| NdArray (a : ndarray R)
| Tensor (t : tensor).

Definition py_array (o : pyobj) : ndarray R :=
  match o with
  | NdArray a => a
  | Tensor t => t
  end.

(** [torch.from_numpy] takes numpy arrays only. *)
Definition from_numpy (o : pyobj) : result tensor :=
  match o with
  | NdArray a => Ok a
  | Tensor _ => Raise TypeError
  end.

(** ** Observation adapter *)

Definition preproc_obs (obs : pyobj) : result tensor :=
  let obs :=
    if (rank (py_array obs) =? 3)%nat then
      let a := py_array obs in
      let a := np_reshape a [nth 2 (shape a) 0%nat; nth 1 (shape a) 0%nat;
                             nth 0 (shape a) 0%nat] in
      NdArray (np_resize 0 a [3%nat; 84%nat; 84%nat])
    else obs in
  rbind (from_numpy obs) (fun t => Ok (float (unsqueeze0 t))).

(** ** Action adapter *)

(** [torch.clamp(x, lo, hi)] on one entry. *)
Definition clamp (x lo hi : R) : R := Rmin (Rmax x lo) hi.

(** [t[i]] for a tensor of rank at least 1: the i-th block along the first
    dimension. *)
Definition row_size (t : tensor) : nat := numel (tl (shape t)).

Definition get_item (t : tensor) (i : nat) : result (list R) :=
  match shape t with
  | [] => Raise IndexError
  | d :: _ =>
      if (i <? d)%nat
      then Ok (firstn (row_size t) (skipn (i * row_size t) (data t)))
      else Raise IndexError
  end.

(** [t[i] = row], in place. *)
Definition set_item (t : tensor) (i : nat) (row : list R) : tensor :=
  mk_array (shape t)
    (firstn (i * row_size t) (data t) ++ row
       ++ skipn ((i + 1) * row_size t) (data t)).

Definition process_action (action : tensor) : result tensor :=
  let action := squeeze action in
  let action := if (rank action =? 0)%nat then unsqueeze0 action else action in
  rbind
    (if (1 <? rank action)%nat
     then rbind (get_item action 1)
            (fun row => Ok (set_item action 1 (map (fun x => clamp x 0 1) row)))
     else Ok action)
    (fun action =>
       if (2 <? rank action)%nat
       then rbind (get_item action 2)
              (fun row =>
                 Ok (set_item action 2 (map (fun x => clamp x 0 1 + 1e-4) row)))
       else Ok action).

(** ** Gaussian policy wrapper *)

(** [torch.nn.Softplus()] on one entry, with the defaults of the layer
    (beta = 1, threshold = 20): above the threshold the entry is returned
    as it is. *)
Definition softplus (x : R) : R :=
  if Rlt_dec 20 x then x else ln (1 + exp x).

Record distribution : Type := mk_distribution {
  loc : list R;
  covariance_matrix : list (list R)
}.

(** [torch.eye(n)] *)
Definition eye (n : nat) : list (list R) :=
  map (fun i => map (fun j => if (i =? j)%nat then 1 else 0) (seq 0 n)) (seq 0 n).

Fixpoint zip_mul (xs ys : list R) : list R :=
  match xs, ys with
  | x :: xs', y :: ys' => x * y :: zip_mul xs' ys'
  | _, _ => []
  end.

(** [torch.eye(n) * sigma], where sigma is the squeezed spread of one
    observation: a scalar when the head has one output, a vector otherwise.
    A vector is broadcast along the rows; the shapes must be compatible. *)
Definition eye_times (n : nat) (sigma : list R) : result (list (list R)) :=
  match sigma with
  | [s] => Ok (map (map (fun e => e * s)) (eye n))
  | _ =>
      if (length sigma =? n)%nat then Ok (map (fun row => zip_mul row sigma) (eye n))
      else if (n =? 1)%nat then Ok (map (fun row => map (fun s => hd 0 row * s) sigma) (eye n))
      else Raise RuntimeError
  end.

Definition Rpositive (x : R) : bool := if Rlt_dec 0 x then true else false.

Definition diagonal (m : list (list R)) : list R :=
  map (fun i => nth i (nth i m []) 0) (seq 0 (length m)).

Definition square_of (n : nat) (m : list (list R)) : bool :=
  (length m =? n)%nat && forallb (fun row => (length row =? n)%nat) m.

(** Modelled from the spec: the constructor of the multivariate Gaussian of
    the tensor library, which the script imports and calls with
    [validate_args=True].  Section 4.2 of the specification gives its
    contract: "validated - construction must fail loudly if spread is
    non-positive or mean/covariance shapes mismatch".  The spread is the
    diagonal of the covariance. *)
Definition MultivariateNormal (mean : list R) (cov : list (list R))
  (validate_args : bool) : result distribution :=
  if validate_args then
    if square_of (length mean) cov then
      if forallb Rpositive (diagonal cov) then Ok (mk_distribution mean cov)
      else Raise ValueError
    else Raise ValueError
  else Ok (mk_distribution mean cov).

(** ** Transitions and metric events *)

Record Transition : Type := mk_transition {
  s : tensor;
  value_s : R;
  a : tensor;
  log_prob_a : R
}.

(** [writer.add_scalar(tag, scalar, step)] *)
Record scalar_event : Type := add_scalar {
  tag : string;
  scalar : R;
  at_step : nat
}.

(** ** External collaborators *)

Class Collaborators : Type := {
  (** parameters of the network together with the state of its optimizer *)
  Params : Type;
  (** [self.actor_critic(x)] on a batch of one observation: the rows of the
      mean head and of the spread head, and the value *)
  forward : Params -> tensor -> list R * list R * R;
  (** [zero_grad(); loss.backward(); step()] *)
  optimizer_step : Params -> R -> Params;
  (** state of the random generator, and [distribution.sample()] *)
  Rng : Type;
  sample : Rng -> distribution -> tensor * Rng;
  (** [distribution.log_prob(action)] *)
  log_prob : distribution -> tensor -> R;
  (** the simulation environment: [reset()] and [step(action)] *)
  EnvState : Type;
  env_reset : EnvState -> EnvState * ndarray R;
  env_step : EnvState -> tensor -> EnvState * (ndarray R * R * bool)
}.

(** ** State of the process

    The attributes of [self] that the methods read or write, the
    module-level metrics writer and step counter, and the state of the
    random generator.  [mu], [sigma], [value] and [action_distribution] do
    not exist before the first policy query. *)

Section Agent.
Context {C : Collaborators}.

Record State : Type := mk_state {
  env : EnvState;
  action_shape : nat;
  actor_critic : Params;
  gamma : R;
  trajectory : list Transition;
  rewards : list R;
  global_step_num : nat;
  mu : option (list R);
  sigma : option (list R);
  value : option R;
  action_distribution : option distribution;
  writer : list scalar_event;
  module_global_step_num : nat;
  rng : Rng
}.

Definition set_env (st : State) (e : EnvState) : State :=
  mk_state e (action_shape st) (actor_critic st) (gamma st) (trajectory st)
    (rewards st) (global_step_num st) (mu st) (sigma st) (value st)
    (action_distribution st) (writer st) (module_global_step_num st) (rng st).

Definition set_actor_critic (st : State) (p : Params) : State :=
  mk_state (env st) (action_shape st) p (gamma st) (trajectory st)
    (rewards st) (global_step_num st) (mu st) (sigma st) (value st)
    (action_distribution st) (writer st) (module_global_step_num st) (rng st).

Definition set_trajectory (st : State) (t : list Transition) : State :=
  mk_state (env st) (action_shape st) (actor_critic st) (gamma st) t
    (rewards st) (global_step_num st) (mu st) (sigma st) (value st)
    (action_distribution st) (writer st) (module_global_step_num st) (rng st).

Definition set_rewards (st : State) (r : list R) : State :=
  mk_state (env st) (action_shape st) (actor_critic st) (gamma st) (trajectory st)
    r (global_step_num st) (mu st) (sigma st) (value st)
    (action_distribution st) (writer st) (module_global_step_num st) (rng st).

Definition set_global_step_num (st : State) (n : nat) : State :=
  mk_state (env st) (action_shape st) (actor_critic st) (gamma st) (trajectory st)
    (rewards st) n (mu st) (sigma st) (value st)
    (action_distribution st) (writer st) (module_global_step_num st) (rng st).

Definition set_policy_outputs (st : State) (m sg : list R) (v : R) : State :=
  mk_state (env st) (action_shape st) (actor_critic st) (gamma st) (trajectory st)
    (rewards st) (global_step_num st) (Some m) (Some sg) (Some v)
    (action_distribution st) (writer st) (module_global_step_num st) (rng st).

Definition set_action_distribution (st : State) (d : distribution) : State :=
  mk_state (env st) (action_shape st) (actor_critic st) (gamma st) (trajectory st)
    (rewards st) (global_step_num st) (mu st) (sigma st) (value st)
    (Some d) (writer st) (module_global_step_num st) (rng st).

Definition set_writer (st : State) (w : list scalar_event) : State :=
  mk_state (env st) (action_shape st) (actor_critic st) (gamma st) (trajectory st)
    (rewards st) (global_step_num st) (mu st) (sigma st) (value st)
    (action_distribution st) w (module_global_step_num st) (rng st).

Definition set_rng (st : State) (g : Rng) : State :=
  mk_state (env st) (action_shape st) (actor_critic st) (gamma st) (trajectory st)
    (rewards st) (global_step_num st) (mu st) (sigma st) (value st)
    (action_distribution st) (writer st) (module_global_step_num st) g.

(** Methods: a state transformer that may raise. *)
Definition M (A : Type) : Type := State -> result (A * State).

Definition ret {A : Type} (x : A) : M A := fun st => Ok (x, st).

Definition bind {A B : Type} (m : M A) (k : A -> M B) : M B :=
  fun st =>
    match m st with
    | Ok (x, st') => k x st'
    | Raise e => Raise e
    end.

Definition lift {A : Type} (r : result A) : M A :=
  fun st => rbind r (fun x => Ok (x, st)).

Definition gets {A : Type} (f : State -> A) : M A := fun st => Ok (f st, st).

Definition modify (f : State -> State) : M unit := fun st => Ok (tt, f st).

(** Reading an attribute that a policy query creates. *)
Definition getattr {A : Type} (f : State -> option A) : M A :=
  fun st =>
    match f st with
    | Some x => Ok (x, st)
    | None => Raise AttributeError
    end.

Definition writer_add_scalar (tg : string) (x : R) (step : nat) : M unit :=
  modify (fun st => set_writer st (writer st ++ [add_scalar tg x step])).

End Agent.

Declare Scope method_scope.
Delimit Scope method_scope with method.
Notation "x <- m ;; k" := (bind m (fun x => k))
  (at level 61, m at next level, right associativity) : method_scope.
Notation "m ;;; k" := (bind m (fun _ => k))
  (at level 61, right associativity) : method_scope.

Section Methods.
Context {C : Collaborators}.
Local Open Scope method_scope.

(** [multi_variate_gaussian_policy]: the heads are clamped and smoothed,
    stored on [self], and handed to the validated constructor.  The squeezed
    mean of a one-output head is a scalar that is unsqueezed again, so the
    mean is a vector in every case. *)
Definition multi_variate_gaussian_policy (obs : tensor) : M distribution :=
  fun st =>
    let '(mu_raw, sigma_raw, v) := forward (actor_critic st) obs in
    let m := map (fun x => clamp x (-1) 1) mu_raw in
    let sg := map (fun x => softplus x + 1e-7) sigma_raw in
    let st := set_policy_outputs st m sg v in
    rbind (eye_times (action_shape st) sg) (fun cov =>
    rbind (MultivariateNormal m cov true) (fun d =>
    Ok (d, set_action_distribution st d))).

(** [self.policy = self.multi_variate_gaussian_policy] *)
Definition policy : tensor -> M distribution := multi_variate_gaussian_policy.

Definition get_action (obs : ndarray R) : M tensor :=
  obs <- lift (preproc_obs (NdArray obs)) ;;
  action_distribution <- policy obs ;;
  value <- getattr value ;;
  g <- gets rng ;;
  let '(action, g') := sample g action_distribution in
  modify (fun st => set_rng st g') ;;;
  let log_prob_a := log_prob action_distribution action in
  action <- lift (process_action action) ;;
  modify (fun st =>
            set_trajectory st
              (trajectory st ++ [mk_transition obs value action log_prob_a])) ;;;
  ret action.

(** The loop of [calculate_n_step_return] over the reversed rewards;
    [insert(0, g)] puts the newest return in front. *)
Fixpoint n_step_loop (gamma_self : R) (reversed_rewards : list R) (g_t_n : R)
  (g_t_n_s : list R) : list R :=
  match reversed_rewards with
  | [] => g_t_n_s
  | r_t :: rest =>
      let g_t_n := r_t + gamma_self * g_t_n in
      n_step_loop gamma_self rest g_t_n (g_t_n :: g_t_n_s)
  end.

(** The body discounts with [self.gamma]; the argument [gamma] is not read. *)
Definition calculate_n_step_return (self : State) (n_step_rewards : list R)
  (final_state : ndarray R) (done : bool) (gamma_arg : R) : result (list R) :=
  rbind
    (if done then Ok 0
     else rbind (preproc_obs (NdArray final_state))
            (fun x => Ok (snd (forward (actor_critic self) x))))
    (fun g_t_n => Ok (n_step_loop (gamma self) (rev n_step_rewards) g_t_n [])).

Definition mean (l : list R) : R := fold_right Rplus 0 l / INR (length l).

(** One term of [F.smooth_l1_loss]. *)
Definition smooth_l1 (x y : R) : R :=
  let d := Rabs (x - y) in
  if Rlt_dec d 1 then 0.5 * d * d else d - 0.5.

(** Element-wise pairing of two vectors; a vector of one entry is broadcast. *)
Definition broadcast2 (xs ys : list R) : result (list (R * R)) :=
  if (length xs =? length ys)%nat then Ok (combine xs ys)
  else match xs, ys with
       | [x], _ => Ok (map (fun y => (x, y)) ys)
       | _, [y] => Ok (map (fun x => (x, y)) xs)
       | _, _ => Raise RuntimeError
       end.

(** Unzipping the trajectory into a Transition of batches needs at least one
    transition. *)
Definition calculate_loss (trajectory : list Transition) (td_targets : list R)
  : result R :=
  match trajectory with
  | [] => Raise TypeError
  | _ =>
      let v_s_batch := map value_s trajectory in
      let log_prob_a_batch := map log_prob_a trajectory in
      rbind (broadcast2 v_s_batch td_targets) (fun pairs =>
      let critic_loss := mean (map (fun p => smooth_l1 (fst p) (snd p)) pairs) in
      let actor_loss := - mean log_prob_a_batch in
      Ok (actor_loss + critic_loss))
  end.

(** The locals of [learn_td_ac]; the method itself returns nothing. *)
Record td_update : Type := mk_td_update {
  policy_loss : R;
  v_st : R;
  v_stp1 : R;
  td_target : R;
  td_err : R;
  loss : R
}.

Definition learn_td_ac (s_t : ndarray R) (a_t : tensor) (r : R)
  (s_tp1 : ndarray R) (done : bool) : M td_update :=
  x_t <- lift (preproc_obs (NdArray s_t)) ;;
  d <- policy x_t ;;
  let policy_loss := log_prob d a_t in
  v_st <- getattr value ;;
  x_tp1 <- lift (preproc_obs (NdArray s_tp1)) ;;
  _ <- policy x_tp1 ;;
  v_stp1 <- getattr value ;;
  gamma_self <- gets gamma ;;
  let td_target := r + gamma_self * v_stp1 in
  let td_err := td_target - v_st in
  let loss := - mean [policy_loss + td_err ^ 2] in
  step <- gets module_global_step_num ;;
  writer_add_scalar "main/loss" loss step ;;;
  modify (fun st => set_actor_critic st (optimizer_step (actor_critic st) loss)) ;;;
  ret (mk_td_update policy_loss v_st v_stp1 td_target td_err loss).

Definition learn (n_th_observation : ndarray R) (done : bool) : M unit :=
  td_targets <- (fun st =>
                   rbind (calculate_n_step_return st (rewards st) n_th_observation
                            done (gamma st))
                     (fun l => Ok (l, st))) ;;
  tr <- gets trajectory ;;
  loss <- lift (calculate_loss tr td_targets) ;;
  step <- gets global_step_num ;;
  writer_add_scalar "agent/loss" loss step ;;;
  modify (fun st => set_actor_critic st (optimizer_step (actor_critic st) loss)).

(** The variables of one episode of [run]. *)
Record episode_vars : Type := mk_episode_vars {
  obs : ndarray R;
  done : bool;
  ep_reward : R;
  step_num : nat
}.

(** One pass through the body of [while not done]. *)
Definition run_step (n_step_learning_step_thresh : Z) (v : episode_vars)
  : M episode_vars :=
  action <- get_action (obs v) ;;
  e <- gets env ;;
  let '(e', (next_obs, reward, done)) := env_step e action in
  modify (fun st => set_env st e') ;;;
  modify (fun st => set_rewards st (rewards st ++ [reward])) ;;;
  let step_num := S (step_num v) in
  (if (n_step_learning_step_thresh <=? Z.of_nat step_num)%Z || done
   then learn next_obs done
   else ret tt) ;;;
  let ep_reward := ep_reward v + reward in
  modify (fun st => set_global_step_num st (S (global_step_num st))) ;;;
  step <- gets global_step_num ;;
  writer_add_scalar "agent/reward" reward step ;;;
  ret (mk_episode_vars next_obs done ep_reward step_num).

(** [while not done]: the loop stops when the environment reports done; with
    no passes left the variables come back with [done = false]. *)
Fixpoint while_not_done (passes : nat) (n_step_learning_step_thresh : Z)
  (v : episode_vars) : M episode_vars :=
  if done v then ret v
  else
    match passes with
    | O => ret v
    | S passes' =>
        v' <- run_step n_step_learning_step_thresh v ;;
        while_not_done passes' n_step_learning_step_thresh v'
    end.

(** [run]: [true] when every episode ended, [false] when an episode was
    still going after [passes] passes. *)
Fixpoint run (passes : nat) (max_episodes : nat) (n_step_learning_step_thresh : Z)
  : M bool :=
  match max_episodes with
  | O => ret true
  | S remaining =>
      e <- gets env ;;
      let '(e', obs) := env_reset e in
      modify (fun st => set_env st e') ;;;
      v <- while_not_done passes n_step_learning_step_thresh
             (mk_episode_vars obs false 0 0) ;;
      if done v then
        step <- gets global_step_num ;;
        writer_add_scalar "agent/ep_reward" (ep_reward v) step ;;;
        run passes remaining n_step_learning_step_thresh
      else ret false
  end.

(** The mean and the spread that a policy query at x computes from the
    heads. *)
Definition clamped_mean (st : State) (x : tensor) : list R :=
  map (fun m => clamp m (-1) 1) (fst (fst (forward (actor_critic st) x))).

Definition spread (st : State) (x : tensor) : list R :=
  map (fun sg => softplus sg + 1e-7) (snd (fst (forward (actor_critic st) x))).

(** The heads of the network have one output per action dimension, as the
    constructors of both networks make them. *)
Definition heads_match (st : State) (x : tensor) : Prop :=
  length (fst (fst (forward (actor_critic st) x))) = action_shape st /\
  length (snd (fst (forward (actor_critic st) x))) = action_shape st.

(** V(x): the value head of the network at a preprocessed observation. *)
Definition V (st : State) (x : tensor) : R := snd (forward (actor_critic st) x).

(** The condition under which one pass of the loop calls learn. *)
Definition trigger (n_step_learning_step_thresh : Z) (step_num : nat)
  (done : bool) : bool :=
  (n_step_learning_step_thresh <=? Z.of_nat step_num)%Z || done.

(** The trigger as the sentence of section 4.5 words it: the step at which
    the count reaches the threshold, or the step that ends the episode. *)
Definition claimed_trigger (n_step_learning_step_thresh : Z) (step_num : nat)
  (terminal : bool) : bool :=
  (Z.of_nat step_num =? n_step_learning_step_thresh)%Z || terminal.

(** The steps at which learn logged its loss: each call of learn writes one
    "agent/loss" event, stamped with the global step number. *)
Definition is_learning_event (e : scalar_event) : bool :=
  String.eqb (tag e) "agent/loss".

Definition learning_steps (w : list scalar_event) : list nat :=
  map at_step (filter is_learning_event w).

(** Every parameter setting of the network has heads of n outputs. *)
Definition network_fits (n : nat) : Prop :=
  forall (p : Params) (x : tensor),
    length (fst (fst (forward p x))) = n /\ length (snd (fst (forward p x))) = n.

(** A sample has the shape of an event of the distribution: a vector with
    one entry per component of the mean. *)
Definition sampler_fits : Prop :=
  forall (g : Rng) (d : distribution),
    shape (fst (sample g d)) = [length (loc d)].

End Methods.

(** ** The recurrences of the specification *)

(** The backward recurrence of section 4.4, written on the reward list:
    the return of a step is its reward plus the discounted return of the
    next step, and past the last step stands the bootstrap value. *)
Fixpoint backward_returns (discount G_n : R) (rewards : list R) : list R :=
  match rewards with
  | [] => []
  | r_t :: later =>
      let G_later := backward_returns discount G_n later in
      (r_t + discount * hd G_n G_later) :: G_later
  end.

(** r_0 + discount * r_1 + ... + discount^(n-1) * r_(n-1) *)
Definition discounted_sum (discount : R) (rewards : list R) : R :=
  fold_right Rplus 0
    (map (fun k => discount ^ k * nth k rewards 0) (seq 0 (length rewards))).

(** ** A small concrete world

    One-dimensional observations whose single entry is also their value, a
    three-dimensional action space, a sampler that returns the mean, and an
    environment that pays 1 per step and ends with its third step. *)

Definition demo_observation (x : R) : ndarray R := mk_array [1%nat] [x].

Definition demo_world : Collaborators := {|
  Params := unit;
  forward := fun _ x => ([2; 0; -3], [0; 0; 0], hd 0 (data x));
  optimizer_step := fun p _ => p;
  Rng := unit;
  sample := fun g d => (mk_array [length (loc d)] (loc d), g);
  log_prob := fun _ _ => 0;
  EnvState := nat;
  env_reset := fun _ => (0%nat, demo_observation 0.5);
  env_step := fun n _ => (S n, (demo_observation 0.6, 1, (2 <=? n)%nat))
|}.

Definition demo_state (discount : R) : @State demo_world :=
  @mk_state demo_world 0%nat 3%nat tt discount [] [] 0%nat None None None None [] 0%nat tt.

(** The variables of an episode after [reset()]. *)
Definition demo_start : @episode_vars :=
  mk_episode_vars (demo_observation 0.5) false 0 0.

(** ** Reference points for the adapters *)

(** The reordering that the comment in preproc_obs asks for ("C x W x H"):
    cell (c, w, h) of the output is cell (h, w, c) of the input. *)
Definition axes_reordered (input output : ndarray R) : Prop :=
  match shape input with
  | [H; W; Ch] =>
      shape output = [Ch; W; H] /\
      forall h w c, (h < H)%nat -> (w < W)%nat -> (c < Ch)%nat ->
        nth ((c * W + w) * H + h) (data output) 0
        = nth ((h * W + w) * Ch + c) (data input) 0
  | _ => False
  end.

(** A canonical 84 x 84 x 3 frame, black except for the green channel of its
    first pixel. *)
Definition marked_frame : ndarray R :=
  mk_array [84%nat; 84%nat; 3%nat] (0 :: 1 :: repeat 0 (84 * 84 * 3 - 2)).

(** A canonical black frame. *)
Definition blank_frame : ndarray R :=
  mk_array [84%nat; 84%nat; 3%nat] (repeat 0 (84 * 84 * 3)).

(** A 2 x 2 frame with a single channel. *)
Definition gray_frame : ndarray R :=
  mk_array [2%nat; 2%nat; 1%nat] [1; 2; 3; 4].

(** A sampled action of a three-dimensional action space. *)
Definition raw_action : tensor := mk_array [3%nat] [0.5; -0.2; 1.5].

(** ** Reading the log of a run *)

(** The rewards that the loop logged under "agent/reward", each with the
    step number it was stamped with. *)
Definition is_reward_event (e : scalar_event) : bool :=
  String.eqb (tag e) "agent/reward".

Definition logged_rewards (w : list scalar_event) : list (R * nat) :=
  map (fun e => (scalar e, at_step e)) (filter is_reward_event w).

(** The events that [run] writes when an episode has ended. *)
Definition is_episode_event (e : scalar_event) : bool :=
  String.eqb (tag e) "agent/ep_reward".

Definition episodes_logged (w : list scalar_event) : nat :=
  length (filter is_episode_event w).

(** ** The script under [if __name__ == "__main__"]

    The script makes the environment, reads the shapes of its spaces and the
    parameters of the agent, constructs the agent and enters the one-step
    loop.  The loop steps the module-level environment, whose state is
    threaded beside the state of the agent, and counts its steps in the
    module-level counter. *)

(** The entries of the parameter dictionary that the agent and the loop
    read. *)
Record agent_params : Type := mk_agent_params {
  params_gamma : R;
  params_max_num_episodes : nat
}.

(** The values that are handed to the constructor of the agent. *)
Inductive pyarg : Type :=
| PyStr (s : string)
| PyTuple (t : list nat)
| PyInt (n : nat)
| PyDict (d : agent_params).

(** A call with positional arguments only: the arguments are bound to the
    parameters in order, and a call with too few or too many of them is a
    type error before the body runs. *)
Definition call_positional {B : Type} (n_params : nat)
  (body : list pyarg -> result B) (args : list pyarg) : result B :=
  if (length args =? n_params)%nat then body args else Raise TypeError.

Section MainLoop.
Context {C : Collaborators}.

(** [gym.make] and the constructors of the two networks. *)
Variable gym_make : string -> EnvState.
Variable new_deep_network : list nat -> nat -> Params.
Variable new_shallow_network : list nat -> nat -> Params.

Local Open Scope method_scope.

Definition set_module_global_step_num (st : State) (n : nat) : State :=
  mk_state (env st) (action_shape st) (actor_critic st) (gamma st) (trajectory st)
    (rewards st) (global_step_num st) (mu st) (sigma st) (value st)
    (action_distribution st) (writer st) n (rng st).

(** [__init__(self, env_name, state_shape, action_shape, agent_params)] on
    its bound arguments: an image-shaped state selects the deep network,
    any other the shallow one, which reads the first entry of the shape.
    The buffers start empty and the step counter at zero; the log, the
    module-level counter and the random generator are what the module has
    set up.  Arguments of other kinds fail inside the libraries; the model
    reports that as a type error. *)
Definition DeepActorCriticAgent_init (w : list scalar_event) (module_step : nat)
  (g : Rng) (args : list pyarg) : result State :=
  match args with
  | [PyStr env_name; PyTuple state_shape; PyInt action_shape; PyDict agent_params] =>
      rbind
        (if (length state_shape =? 3)%nat
         then Ok (new_deep_network state_shape action_shape)
         else match state_shape with
              | [] => Raise IndexError
              | _ :: _ => Ok (new_shallow_network state_shape action_shape)
              end)
        (fun network =>
           Ok (mk_state (gym_make env_name) action_shape network
                 (params_gamma agent_params) [] [] 0 None None None None
                 w module_step g))
  | _ => Raise TypeError
  end.

(** One pass through the body of the loop. *)
Definition main_pass (e : EnvState) (v : episode_vars)
  : M (EnvState * episode_vars) :=
  action <- get_action (obs v) ;;
  let '(e', (next_obs, reward, done)) := env_step e action in
  _ <- learn_td_ac (obs v) action reward next_obs done ;;
  let ep_reward := ep_reward v + reward in
  let step_num := S (step_num v) in
  modify (fun st =>
            set_module_global_step_num st (S (module_global_step_num st))) ;;;
  step <- gets module_global_step_num ;;
  writer_add_scalar "main/reward" reward step ;;;
  ret (e', mk_episode_vars next_obs done ep_reward step_num).

(** [while not done] of the one-step loop, with a bound on the passes. *)
Fixpoint main_while_not_done (passes : nat) (e : EnvState) (v : episode_vars)
  : M (EnvState * episode_vars) :=
  if done v then ret (e, v)
  else
    match passes with
    | O => ret (e, v)
    | S passes' =>
        ev <- main_pass e v ;;
        main_while_not_done passes' (fst ev) (snd ev)
    end.

(** [for episode in range(agent_params["max_num_episodes"])]: [true] when
    every episode ended within the bound. *)
Fixpoint main_episodes (passes : nat) (episodes : nat) (e : EnvState) : M bool :=
  match episodes with
  | O => ret true
  | S remaining =>
      let '(e1, obs) := env_reset e in
      ev <- main_while_not_done passes e1 (mk_episode_vars obs false 0 0) ;;
      if done (snd ev) then
        step <- gets module_global_step_num ;;
        writer_add_scalar "main/ep_reward" (ep_reward (snd ev)) step ;;;
        main_episodes passes remaining (fst ev)
      else ret false
  end.

(** The block as the script has it: the agent is constructed from the
    observation shape, the action shape and the parameters - three
    arguments - and the loop runs on the agent that the call returns. *)
Definition main_script (env_name : string) (observation_shape : list nat)
  (action_shape : nat) (params : agent_params) (w : list scalar_event)
  (g : Rng) (passes : nat) : result (bool * State) :=
  let e := gym_make env_name in
  rbind
    (call_positional 4 (DeepActorCriticAgent_init w 0 g)
       [PyTuple observation_shape; PyInt action_shape; PyDict params])
    (fun agent => main_episodes passes (params_max_num_episodes params) e agent).

End MainLoop.

(** ** The two networks

    The layers of the tensor library that the networks are built from, on
    real entries: a fully connected layer acts on the last dimension, a
    convolution (stride 1, no padding, as the script configures all three)
    on a batch of images, the rectifier entry by entry. *)

Definition dot (u v : list R) : R := fold_right Rplus 0 (zip_mul u v).

Definition sum_over (l : list nat) (f : nat -> R) : R :=
  fold_right Rplus 0 (map f l).

(** [torch.nn.ReLU()] *)
Definition relu (t : tensor) : tensor :=
  mk_array (shape t) (map (fun v => Rmax 0 v) (data t)).

(** [torch.nn.Linear(in_features, out_features)]: a weight of
    out_features rows and a bias. *)
Record Linear : Type := mk_linear {
  in_features : nat;
  out_features : nat;
  weight : list (list R);
  bias : list R
}.

(** What the constructor of the layer guarantees. *)
Definition linear_built (l : Linear) (n_in n_out : nat) : Prop :=
  in_features l = n_in /\ out_features l = n_out /\
  length (weight l) = n_out /\ length (bias l) = n_out /\
  Forall (fun row => length row = n_in) (weight l).

Definition linear_row (l : Linear) (x : list R) : list R :=
  map (fun wb => dot (fst wb) x + snd wb) (combine (weight l) (bias l)).

(** The i-th row of length n of a flat list. *)
Definition row_at (n : nat) (entries : list R) (i : nat) : list R :=
  firstn n (skipn (i * n) entries).

(** The layer on a tensor of shape (..., in_features). *)
Definition apply_linear (l : Linear) (x : tensor) : result tensor :=
  match rev (shape x) with
  | [] => Raise RuntimeError
  | last :: lead =>
      if (last =? in_features l)%nat
      then Ok (mk_array (rev lead ++ [out_features l])
                 (flat_map (fun i => linear_row l (row_at last (data x) i))
                    (seq 0 (numel lead))))
      else Raise RuntimeError
  end.

(** [torch.nn.Conv2d(in_channels, out_channels, kernel_size, stride=1,
    padding=0)]: the weight is stored flat, in the order (out, in, row,
    column). *)
Record Conv2d : Type := mk_conv2d {
  in_channels : nat;
  out_channels : nat;
  kernel_size : nat;
  conv_weight : list R;
  conv_bias : list R
}.

Definition conv_built (c : Conv2d) (n_in n_out k : nat) : Prop :=
  in_channels c = n_in /\ out_channels c = n_out /\ kernel_size c = k /\
  length (conv_weight c) = (n_out * n_in * k * k)%nat /\
  length (conv_bias c) = n_out.

(** One cell of the output: the bias plus the products of the kernel with
    the window of the input at (i, j), over all input channels. *)
Definition conv_cell (c : Conv2d) (x : list R) (h w : nat) (b o i j : nat) : R :=
  let cin := in_channels c in
  let k := kernel_size c in
  nth o (conv_bias c) 0
  + sum_over (seq 0 cin) (fun ch =>
      sum_over (seq 0 k) (fun di =>
        sum_over (seq 0 k) (fun dj =>
          nth (((o * cin + ch) * k + di) * k + dj) (conv_weight c) 0
          * nth (((b * cin + ch) * h + (i + di)) * w + (j + dj)) x 0))).

(** The layer on a batch of images of shape (batch, channels, height,
    width). *)
Definition apply_conv (c : Conv2d) (x : tensor) : result tensor :=
  match shape x with
  | [b; ch; h; w] =>
      let k := kernel_size c in
      if (ch =? in_channels c)%nat && (k <=? h)%nat && (k <=? w)%nat
      then
        let h' := (h - k + 1)%nat in
        let w' := (w - k + 1)%nat in
        Ok (mk_array [b; out_channels c; h'; w']
              (flat_map (fun bi =>
                 flat_map (fun o =>
                   flat_map (fun i =>
                     map (fun j => conv_cell c (data x) h w bi o i j) (seq 0 w'))
                     (seq 0 h'))
                   (seq 0 (out_channels c)))
                 (seq 0 b)))
      else Raise RuntimeError
  | _ => Raise RuntimeError
  end.

(** [x.view(x.shape[0], -1)] *)
Definition view_rows (x : tensor) : result tensor :=
  match shape x with
  | [] => Raise IndexError
  | b :: rest =>
      if (b =? 0)%nat then Raise RuntimeError
      else Ok (mk_array [b; numel rest] (data x))
  end.

Module ShallowActorCritic.

Record net : Type := mk_net {
  layer1 : Linear;
  layer2 : Linear;
  actor_mu : Linear;
  actor_sigma : Linear;
  critic : Linear
}.

(** [__init__(input_shape, actor_shape, critic_shape)] *)
Definition built (n : net) (input_shape : list nat)
  (actor_shape critic_shape : nat) : Prop :=
  linear_built (layer1 n) (nth 0 input_shape 0%nat) 256 /\
  linear_built (layer2 n) 256 128 /\
  linear_built (actor_mu n) 128 actor_shape /\
  linear_built (actor_sigma n) 128 actor_shape /\
  linear_built (critic n) 128 critic_shape.

Definition forward (n : net) (x : tensor) : result (tensor * tensor * tensor) :=
  rbind (apply_linear (layer1 n) x) (fun x =>
  let x := relu x in
  rbind (apply_linear (layer2 n) x) (fun x =>
  let x := relu x in
  rbind (apply_linear (actor_mu n) x) (fun mu_out =>
  rbind (apply_linear (actor_sigma n) x) (fun sigma_out =>
  rbind (apply_linear (critic n) x) (fun critic_out =>
  Ok (mu_out, sigma_out, critic_out)))))).

End ShallowActorCritic.

Module DeepActorCritic.

Record net : Type := mk_net {
  layer1 : Conv2d;
  layer2 : Conv2d;
  layer3 : Conv2d;
  layer4 : Linear;
  actor_mu : Linear;
  actor_sigma : Linear;
  critic : Linear
}.

(** [__init__(input_shape, actor_shape, critic_shape)] *)
Definition built (n : net) (input_shape : list nat)
  (actor_shape critic_shape : nat) : Prop :=
  conv_built (layer1 n) (nth 2 input_shape 0%nat) 128 3 /\
  conv_built (layer2 n) 128 64 3 /\
  conv_built (layer3 n) 64 32 3 /\
  linear_built (layer4 n) (32 * 78 * 78) 2048 /\
  linear_built (actor_mu n) 2048 actor_shape /\
  linear_built (actor_sigma n) 2048 actor_shape /\
  linear_built (critic n) 2048 critic_shape.

Definition forward (n : net) (x : tensor) : result (tensor * tensor * tensor) :=
  rbind (apply_conv (layer1 n) x) (fun x =>
  let x := relu x in
  rbind (apply_conv (layer2 n) x) (fun x =>
  let x := relu x in
  rbind (apply_conv (layer3 n) x) (fun x =>
  let x := relu x in
  rbind (view_rows x) (fun x =>
  rbind (apply_linear (layer4 n) x) (fun x =>
  let x := relu x in
  rbind (apply_linear (actor_mu n) x) (fun mu_out =>
  rbind (apply_linear (actor_sigma n) x) (fun sigma_out =>
  rbind (apply_linear (critic n) x) (fun critic_out =>
  Ok (mu_out, sigma_out, critic_out))))))))).

End DeepActorCritic.


(** Networks whose weights are all zero, of the shapes the constructors
    make. *)
Definition zero_linear (n_in n_out : nat) : Linear :=
  mk_linear n_in n_out (repeat (repeat 0 n_in) n_out) (repeat 0 n_out).

Definition zero_conv (n_in n_out k : nat) : Conv2d :=
  mk_conv2d n_in n_out k (repeat 0 (n_out * n_in * k * k)) (repeat 0 n_out).

Definition zero_shallow (n0 actor_shape critic_shape : nat)
  : ShallowActorCritic.net :=
  ShallowActorCritic.mk_net (zero_linear n0 256) (zero_linear 256 128)
    (zero_linear 128 actor_shape) (zero_linear 128 actor_shape)
    (zero_linear 128 critic_shape).

Definition zero_deep (channels actor_shape critic_shape : nat)
  : DeepActorCritic.net :=
  DeepActorCritic.mk_net (zero_conv channels 128 3) (zero_conv 128 64 3)
    (zero_conv 64 32 3) (zero_linear (32 * 78 * 78) 2048)
    (zero_linear 2048 actor_shape) (zero_linear 2048 actor_shape)
    (zero_linear 2048 critic_shape).

(** * Properties *)

(** Running a method that returned: split on the innermost scrutinee of the
    unfolded binds until the run is explicit. *)
Ltac case_step H :=
  match type of H with
  | context [match ?x with _ => _ end] =>
      lazymatch x with
      | context [match _ with _ => _ end] => fail
      | _ => destruct x eqn:?
      end
  end.

Ltac run_method H :=
  cbv beta delta [bind gets modify ret lift getattr writer_add_scalar rbind] in H;
  repeat (case_step H; try discriminate H).

(** ** Arrays *)

Lemma numel_permuted (d0 d1 d2 : nat) :
  numel [d2; d1; d0] = numel [d0; d1; d2].
Proof. unfold numel; simpl; lia. Qed.

(** ** The n-step return *)

Lemma n_step_loop_backward (discount G_n : R) (earlier later : list R) :
  n_step_loop discount (rev earlier)
    (hd G_n (backward_returns discount G_n later))
    (backward_returns discount G_n later)
  = backward_returns discount G_n (earlier ++ later).
Proof.
  revert later.
  induction earlier as [| r earlier IH] using rev_ind; intros later.
  - reflexivity.
  - rewrite rev_app_distr, <- app_assoc. simpl.
    exact (IH (r :: later)).
Qed.

Lemma n_step_loop_refines (discount G_n : R) (rewards : list R) :
  n_step_loop discount (rev rewards) G_n [] = backward_returns discount G_n rewards.
Proof.
  pose proof (n_step_loop_backward discount G_n rewards []) as H.
  simpl in H. rewrite app_nil_r in H. exact H.
Qed.

Lemma backward_returns_length (discount G_n : R) (rewards : list R) :
  length (backward_returns discount G_n rewards) = length rewards.
Proof. induction rewards as [| r later IH]; simpl; [reflexivity | now rewrite IH]. Qed.

Lemma backward_returns_step (discount G_n : R) (rewards : list R) (t : nat) :
  (t < length rewards)%nat ->
  nth t (backward_returns discount G_n rewards) 0
  = nth t rewards 0
    + discount * (if (S t =? length rewards)%nat then G_n
                  else nth (S t) (backward_returns discount G_n rewards) 0).
Proof.
  revert t. induction rewards as [| r later IH]; intros t Ht; simpl in Ht; [lia |].
  destruct t as [| t].
  - cbn [backward_returns nth length]. f_equal. f_equal.
    destruct later as [| r' later']; reflexivity.
  - cbn [backward_returns nth length].
    rewrite IH by lia. reflexivity.
Qed.

Lemma sum_scaled (c : R) (f : nat -> R) (l : list nat) :
  fold_right Rplus 0 (map (fun k => c * f k) l)
  = c * fold_right Rplus 0 (map f l).
Proof. induction l as [| k l IH]; simpl; [lra | rewrite IH; lra]. Qed.

Lemma discounted_sum_cons (discount r : R) (later : list R) :
  discounted_sum discount (r :: later) = r + discount * discounted_sum discount later.
Proof.
  unfold discounted_sum. cbn [length]. rewrite <- cons_seq, <- seq_shift.
  cbn [map fold_right nth pow]. rewrite map_map.
  rewrite <- sum_scaled. f_equal; [lra |].
  f_equal. apply map_ext. intros k. cbn [nth pow]. lra.
Qed.

Lemma backward_returns_terminal_head (discount : R) (rewards : list R) :
  hd 0 (backward_returns discount 0 rewards) = discounted_sum discount rewards.
Proof.
  induction rewards as [| r later IH].
  - reflexivity.
  - rewrite discounted_sum_cons, <- IH. reflexivity.
Qed.

Lemma backward_returns_skipn (discount G_n : R) (rewards : list R) (t : nat) :
  (t < length rewards)%nat ->
  nth t (backward_returns discount G_n rewards) 0
  = hd 0 (backward_returns discount G_n (skipn t rewards)).
Proof.
  revert t. induction rewards as [| r later IH]; intros t Ht; simpl in Ht; [lia |].
  destruct t as [| t]; [reflexivity |].
  cbn [backward_returns nth skipn]. apply IH. lia.
Qed.

Lemma backward_returns_last (discount G_n : R) (rewards : list R) :
  (0 < length rewards)%nat ->
  nth (length rewards - 1) (backward_returns discount G_n rewards) 0
  = nth (length rewards - 1) rewards 0 + discount * G_n.
Proof.
  intros Hn. rewrite backward_returns_step by lia.
  replace (S (length rewards - 1)) with (length rewards) by lia.
  now rewrite Nat.eqb_refl.
Qed.

(** ** The observation adapter on numpy arrays *)

Lemma preproc_obs_ndarray (a : ndarray R) :
  preproc_obs (NdArray a)
  = Ok (unsqueeze0
          (if (rank a =? 3)%nat
           then np_resize 0
                  (np_reshape a [nth 2 (shape a) 0%nat; nth 1 (shape a) 0%nat;
                                 nth 0 (shape a) 0%nat])
                  [3%nat; 84%nat; 84%nat]
           else a)).
Proof.
  unfold preproc_obs. cbn [py_array].
  destruct (rank a =? 3)%nat; reflexivity.
Qed.

Section ReturnCalculator.
Context {C : Collaborators}.

(** The call returns, and its result is the recurrence of the specification
    started from the bootstrap value. *)
Lemma calculate_n_step_return_refines
  (self : State) (n_step_rewards : list R) (final_state : ndarray R)
  (done : bool) (gamma_arg : R) :
  exists x : tensor,
    preproc_obs (NdArray final_state) = Ok x /\
    calculate_n_step_return self n_step_rewards final_state done gamma_arg
    = Ok (backward_returns (gamma self)
            (if done then 0 else snd (forward (actor_critic self) x))
            n_step_rewards).
Proof.
  rewrite preproc_obs_ndarray. eexists. split; [reflexivity |].
  unfold calculate_n_step_return. rewrite preproc_obs_ndarray.
  destruct done; cbn [rbind]; now rewrite n_step_loop_refines.
Qed.

(** The two scenarios of section 8, in the small world. *)
Example returns_of_terminal_window :
  exists G,
    calculate_n_step_return (C := demo_world) (demo_state 0.5) [1; 1; 1]
      (demo_observation 0) true 0.5 = Ok G /\
    Forall2 eq G [1.75; 1.5; 1.0].
Proof.
  eexists. split; [reflexivity |].
  cbn [rev app n_step_loop gamma demo_state].
  repeat constructor; lra.
Qed.

Example returns_of_bootstrapped_window :
  exists G,
    calculate_n_step_return (C := demo_world) (demo_state 0.9) [2]
      (demo_observation 10) false 0.9 = Ok G /\
    Forall2 eq G [11.0].
Proof.
  eexists. split; [reflexivity |].
  cbn. repeat constructor; lra.
Qed.

(** C1.  The list that calculate_n_step_return yields obeys the backward
    recurrence of the specification: with G_n = 0 for a terminal window and
    the value of the network at the preprocessed final state otherwise,
    G_t = r_t + gamma * G_(t+1) at every index, where gamma is the discount
    of the agent.  For a terminal window each G_t is the discounted sum of
    the rewards from t on and the last return is the last reward; otherwise
    the last return is the last reward plus gamma times the bootstrap value.
    The call always returns. *)
Theorem calculate_n_step_return_recurrence
  (self : State) (n_step_rewards : list R) (final_state : ndarray R)
  (done : bool) (gamma_arg : R) :
  let n := length n_step_rewards in
  exists (x : tensor) (G : list R),
    preproc_obs (NdArray final_state) = Ok x /\
    let G_n := if done then 0 else snd (forward (actor_critic self) x) in
    calculate_n_step_return self n_step_rewards final_state done gamma_arg = Ok G /\
    G = backward_returns (gamma self) G_n n_step_rewards /\
    length G = n /\
    (forall t, (t < n)%nat ->
       nth t G 0 = nth t n_step_rewards 0
                   + gamma self * (if (S t =? n)%nat then G_n else nth (S t) G 0)) /\
    (done = true ->
       (forall t, (t < n)%nat ->
          nth t G 0 = discounted_sum (gamma self) (skipn t n_step_rewards)) /\
       ((0 < n)%nat -> nth (n - 1) G 0 = nth (n - 1) n_step_rewards 0)) /\
    (done = false -> (0 < n)%nat ->
       nth (n - 1) G 0
       = nth (n - 1) n_step_rewards 0
         + gamma self * snd (forward (actor_critic self) x)).
Proof.
  intros n. subst n.
  destruct (calculate_n_step_return_refines self n_step_rewards final_state
              done gamma_arg) as (x & Hx & Hcall).
  exists x. eexists. split; [exact Hx |]. cbv zeta.
  split; [exact Hcall |].
  split; [reflexivity |].
  split; [apply backward_returns_length |].
  split; [intros t Ht; now apply backward_returns_step |].
  split.
  - intros Hd. rewrite Hd. split.
    + intros t Ht. rewrite backward_returns_skipn by exact Ht.
      apply backward_returns_terminal_head.
    + intros Hn. rewrite backward_returns_last by exact Hn. lra.
  - intros Hd Hn. rewrite Hd.
    now rewrite backward_returns_last by exact Hn.
Qed.

(** C10.  The list of returns has exactly the length of the reward list and
    keeps its order: the returns of [r :: later] are the return of the
    earliest step followed by the returns of [later].  For no rewards the
    result is the empty list, whatever the terminal flag: the bootstrap
    value is dropped. *)
Theorem calculate_n_step_return_length
  (self : State) (n_step_rewards : list R) (final_state : ndarray R)
  (done : bool) (gamma_arg : R) :
  exists G : list R,
    calculate_n_step_return self n_step_rewards final_state done gamma_arg = Ok G /\
    length G = length n_step_rewards /\
    (forall r later, n_step_rewards = r :: later ->
       exists G_0 G_later,
         calculate_n_step_return self later final_state done gamma_arg = Ok G_later /\
         G = G_0 :: G_later /\
         G_0 = r + gamma self * nth 1 G (if done then 0 else
                 match preproc_obs (NdArray final_state) with
                 | Ok x => snd (forward (actor_critic self) x)
                 | Raise _ => 0
                 end)) /\
    calculate_n_step_return self [] final_state done gamma_arg = Ok [].
Proof.
  destruct (calculate_n_step_return_refines self n_step_rewards final_state
              done gamma_arg) as (x & Hx & Hcall).
  eexists. split; [exact Hcall |].
  split; [apply backward_returns_length |]. split.
  - intros r later Hr.
    destruct (calculate_n_step_return_refines self later final_state
                done gamma_arg) as (x' & Hx' & Hcall').
    rewrite Hx in Hx'. injection Hx' as <-.
    subst n_step_rewards. cbn [backward_returns]. rewrite Hx.
    eexists; eexists. split; [exact Hcall' |]. split; [reflexivity |].
    cbn [nth].
    destruct (backward_returns (gamma self)
                (if done then 0 else snd (forward (actor_critic self) x)) later);
      destruct done; reflexivity.
  - destruct (calculate_n_step_return_refines self [] final_state
                done gamma_arg) as (x' & _ & Hcall').
    exact Hcall'.
Qed.

End ReturnCalculator.

(** ** np.resize *)

Section Resize.
Context {A : Type}.

Lemma ceil_div_same (n : nat) : (0 < n)%nat -> ceil_div n n = 1%nat.
Proof.
  intros Hn. unfold ceil_div. symmetry.
  apply (Nat.div_unique (n + n - 1) n 1 (n - 1)); lia.
Qed.

Lemma ceil_div_covers (n d : nat) : (0 < d)%nat -> (n <= ceil_div n d * d)%nat.
Proof.
  intros Hd. unfold ceil_div.
  pose proof (Nat.div_mod_eq (n + d - 1) d) as E.
  pose proof (Nat.mod_upper_bound (n + d - 1) d ltac:(lia)) as B.
  nia.
Qed.

Lemma nth_concat_repeat (l : list A) (k i : nat) (d : A) :
  (i < k * length l)%nat ->
  nth i (concat (repeat l k)) d = nth (i mod length l) l d.
Proof.
  revert i. induction k as [| k IH]; intros i Hi; [lia |].
  cbn [repeat concat].
  assert (Hl : (0 < length l)%nat) by (destruct (length l); lia).
  destruct (Nat.lt_ge_cases i (length l)) as [Hlt | Hge].
  - rewrite app_nth1 by exact Hlt. now rewrite Nat.mod_small.
  - rewrite app_nth2 by exact Hge. rewrite IH by lia.
    f_equal.
    replace i with ((i - length l) + 1 * length l)%nat at 2 by lia.
    now rewrite Nat.Div0.mod_add.
Qed.

Lemma nth_firstn (l : list A) (n i : nat) (d : A) :
  (i < n)%nat -> nth i (firstn n l) d = nth i l d.
Proof.
  revert n i. induction l as [| x l IH]; intros n i Hi.
  - now rewrite firstn_nil.
  - destruct n as [| n]; [lia |]. destruct i as [| i]; [reflexivity |].
    cbn [firstn nth]. apply IH. lia.
Qed.

(** The shape after [np.resize] is the requested one. *)
Lemma np_resize_shape (zero : A) (a : ndarray A) (s : list nat) :
  shape (np_resize zero a s) = s.
Proof. unfold np_resize. destruct (_ || _); reflexivity. Qed.

(** The contents after [np.resize]: cell i holds cell [i mod size] of the
    flattened input. *)
Lemma np_resize_nth (zero : A) (a : ndarray A) (s : list nat) (i : nat) (d : A) :
  (0 < length (data a))%nat -> (i < numel s)%nat ->
  nth i (data (np_resize zero a s)) d = nth (i mod length (data a)) (data a) d.
Proof.
  intros Ha Hi. unfold np_resize.
  destruct (length (data a) =? 0)%nat eqn:E1; [apply Nat.eqb_eq in E1; lia |].
  destruct (numel s =? 0)%nat eqn:E2; [apply Nat.eqb_eq in E2; lia |].
  cbn [orb data]. rewrite nth_firstn by exact Hi.
  apply nth_concat_repeat.
  pose proof (ceil_div_covers (numel s) (length (data a)) Ha). lia.
Qed.

Lemma np_resize_length (zero : A) (a : ndarray A) (s : list nat) :
  length (data (np_resize zero a s)) = numel s.
Proof.
  unfold np_resize.
  destruct (length (data a) =? 0)%nat eqn:E1; cbn [orb data];
    [apply repeat_length |].
  destruct (numel s =? 0)%nat eqn:E2; cbn [data]; [apply repeat_length |].
  apply Nat.eqb_neq in E1, E2.
  rewrite length_firstn. apply Nat.min_l.
  assert (Hc : forall k, length (concat (repeat (data a) k)) = (k * length (data a))%nat).
  { induction k as [| k IH]; [reflexivity |].
    cbn [repeat concat]. rewrite length_app, IH. lia. }
  rewrite Hc. apply ceil_div_covers. lia.
Qed.

(** Resizing to the size the array already has keeps the contents. *)
Lemma np_resize_same_size (zero : A) (a : ndarray A) (s : list nat) :
  length (data a) = numel s -> (0 < numel s)%nat ->
  np_resize zero a s = mk_array s (data a).
Proof.
  intros Hlen Hs. unfold np_resize.
  destruct (length (data a) =? 0)%nat eqn:E1; [apply Nat.eqb_eq in E1; lia |].
  destruct (numel s =? 0)%nat eqn:E2; [apply Nat.eqb_eq in E2; lia |].
  cbn [orb]. rewrite <- Hlen, ceil_div_same by lia.
  cbn [repeat concat]. rewrite app_nil_r, firstn_all. reflexivity.
Qed.

End Resize.

(** ** The adapters *)

Lemma canonical_size : numel [3%nat; 84%nat; 84%nat] = (84 * 84 * 3)%nat.
Proof. reflexivity. Qed.

Lemma canonical_size_pos : (0 < numel [3%nat; 84%nat; 84%nat])%nat.
Proof. rewrite canonical_size. apply Nat.ltb_lt. reflexivity. Qed.

(** On a well-formed 84 x 84 x 3 array the adapter keeps the row-major
    contents and relabels the shape. *)
Lemma preproc_obs_canonical (x : ndarray R) :
  shape x = [84%nat; 84%nat; 3%nat] -> well_formed x ->
  preproc_obs (NdArray x) = Ok (mk_array [1%nat; 3%nat; 84%nat; 84%nat] (data x)).
Proof.
  intros Hs Hwf. rewrite preproc_obs_ndarray.
  unfold rank. rewrite Hs. cbn [length Nat.eqb nth].
  rewrite np_resize_same_size.
  - reflexivity.
  - cbn [np_reshape data]. unfold well_formed in Hwf. rewrite Hwf, Hs.
    apply (numel_permuted 3 84 84).
  - exact canonical_size_pos.
Qed.

Lemma marked_frame_well_formed : well_formed marked_frame.
Proof.
  unfold well_formed, marked_frame. cbn [data shape length].
  rewrite repeat_length. reflexivity.
Qed.

Lemma blank_frame_well_formed : well_formed blank_frame.
Proof.
  unfold well_formed, blank_frame. cbn [data shape].
  rewrite repeat_length. reflexivity.
Qed.

(** A vector passes through process_action unchanged, whatever its length:
    both guards test the rank, which is 1 after squeeze and unsqueeze. *)
Lemma process_action_vector (t : tensor) (n : nat) :
  shape t = [n] -> process_action t = Ok (mk_array [n] (data t)).
Proof.
  destruct t as [sh entries]. cbn [shape data]. intros ->.
  unfold process_action, squeeze. cbn [shape data filter].
  destruct (n =? 1)%nat eqn:E; cbn [negb].
  - apply Nat.eqb_eq in E. subst n. reflexivity.
  - reflexivity.
Qed.

(** C3.  The sampled action [0.5, -0.2, 1.5] of a three-dimensional action
    space comes back from process_action as it went in: the guards compare
    the number of tensor dimensions (here 1) with 1 and 2, so neither clamp
    runs, and the result is not [0.5, 0.0, 1.0 + 1e-4]. *)
Theorem process_action_skips_clamps :
  process_action raw_action = Ok raw_action /\
  process_action raw_action <> Ok (mk_array [3%nat] [0.5; 0; 1 + 1e-4]).
Proof.
  assert (H : process_action raw_action = Ok raw_action)
    by (apply (process_action_vector raw_action 3); reflexivity).
  split; [exact H |].
  rewrite H. unfold raw_action. intros E.
  injection E as E2 E3. lra.
Qed.

(** C5.  On the canonical frame [marked_frame] the adapter returns a tensor
    of shape (1, 3, 84, 84) whose row-major contents are those of the input:
    the axes are relabelled, not reordered, so the marked cell stays at
    index (0, 0, 1) instead of moving to (1, 0, 0).  On a frame with one
    channel the result still has three channels. *)
Theorem preproc_obs_relabels_axes :
  preproc_obs (NdArray marked_frame)
  = Ok (mk_array [1%nat; 3%nat; 84%nat; 84%nat] (data marked_frame)) /\
  ~ axes_reordered marked_frame (mk_array [3%nat; 84%nat; 84%nat] (data marked_frame)) /\
  exists t, preproc_obs (NdArray gray_frame) = Ok t /\
            shape t = [1%nat; 3%nat; 84%nat; 84%nat].
Proof.
  split; [| split].
  - apply preproc_obs_canonical; [reflexivity | exact marked_frame_well_formed].
  - unfold axes_reordered. cbn [shape marked_frame data].
    intros [_ H]. specialize (H 0%nat 0%nat 1%nat).
    specialize (H ltac:(lia) ltac:(lia) ltac:(lia)).
    change ((0 * 84 + 0) * 3 + 1)%nat with 1%nat in H.
    replace ((1 * 84 + 0) * 84 + 0)%nat with (2 + (84 * 84 - 2))%nat in H
      by reflexivity.
    cbn [nth Nat.add] in H. rewrite nth_repeat in H. lra.
  - rewrite preproc_obs_ndarray. eexists. split; [reflexivity |].
    change (rank gray_frame =? 3)%nat with true. cbv iota.
    cbn [unsqueeze0 shape]. now rewrite np_resize_shape.
Qed.

(** C6, as stated, fails on the canonical black frame: the result of the
    first application is a tensor, and handing it to preproc_obs again does
    not give that result back. *)
Lemma preproc_obs_twice_differs :
  ~ (rbind (preproc_obs (NdArray blank_frame)) (fun t => preproc_obs (Tensor t))
     = preproc_obs (NdArray blank_frame)).
Proof.
  rewrite (preproc_obs_canonical blank_frame eq_refl blank_frame_well_formed).
  cbn [rbind]. unfold preproc_obs. cbn [py_array rank shape length Nat.eqb from_numpy rbind].
  discriminate.
Qed.

(** C6, amended.  On an 84 x 84 x 3 array the first application yields a
    tensor of shape (1, 3, 84, 84).  A second application to that tensor
    raises a type error; handed the contents of that tensor as an array it
    keeps them and adds another leading dimension, so the result of two
    applications is never the result of one. *)
Theorem preproc_obs_second_application (x : ndarray R) :
  shape x = [84%nat; 84%nat; 3%nat] ->
  exists once,
    preproc_obs (NdArray x) = Ok once /\
    shape once = [1%nat; 3%nat; 84%nat; 84%nat] /\
    preproc_obs (Tensor once) = Raise TypeError /\
    preproc_obs (NdArray once)
    = Ok (mk_array [1%nat; 1%nat; 3%nat; 84%nat; 84%nat] (data once)) /\
    preproc_obs (NdArray once) <> Ok once.
Proof.
  intros Hs. rewrite preproc_obs_ndarray.
  unfold rank. rewrite Hs. cbn [length Nat.eqb nth].
  eexists. split; [reflexivity |].
  set (once := unsqueeze0 _).
  assert (Hshape : shape once = [1%nat; 3%nat; 84%nat; 84%nat])
    by (subst once; cbn [unsqueeze0 shape]; now rewrite np_resize_shape).
  clearbody once.
  split; [exact Hshape |].
  assert (Htensor : preproc_obs (Tensor once) = Raise TypeError).
  { unfold preproc_obs. cbn [py_array]. unfold rank. rewrite Hshape. reflexivity. }
  split; [exact Htensor |].
  assert (Harray : preproc_obs (NdArray once)
                   = Ok (mk_array [1%nat; 1%nat; 3%nat; 84%nat; 84%nat] (data once))).
  { rewrite preproc_obs_ndarray. unfold rank. rewrite Hshape.
    cbn [length Nat.eqb]. unfold unsqueeze0. now rewrite Hshape. }
  split; [exact Harray |].
  rewrite Harray. intros E. injection E as E.
  apply (f_equal shape) in E. cbn [shape] in E. rewrite Hshape in E.
  discriminate E.
Qed.

Lemma preproc_obs_second_application_witness :
  exists once,
    preproc_obs (NdArray blank_frame) = Ok once /\
    preproc_obs (Tensor once) = Raise TypeError /\
    preproc_obs (NdArray once) <> Ok once.
Proof.
  destruct (preproc_obs_second_application blank_frame eq_refl)
    as (once & Hfirst & _ & Htensor & _ & Hdiffer).
  exists once. split; [exact Hfirst |]. split; [exact Htensor | exact Hdiffer].
Defined.

(** ** The policy wrapper *)

Lemma softplus_positive (x : R) : 0 < softplus x.
Proof.
  unfold softplus. destruct (Rlt_dec 20 x); [lra |].
  rewrite <- ln_1. apply ln_increasing; [lra |].
  pose proof (exp_pos x). lra.
Qed.

Lemma clamp_range (x lo hi : R) : lo <= hi -> lo <= clamp x lo hi <= hi.
Proof.
  intros H. unfold clamp, Rmin, Rmax.
  destruct (Rle_dec x lo); destruct (Rle_dec _ hi); lra.
Qed.

Lemma Rpositive_true (x : R) : Rpositive x = true <-> 0 < x.
Proof. unfold Rpositive. destruct (Rlt_dec 0 x); split; intros; try easy; lra. Qed.

Lemma nth_map_seq {A : Type} (g : nat -> A) (n i : nat) (d : A) :
  (i < n)%nat -> nth i (map g (seq 0 n)) d = g i.
Proof.
  intros Hi. rewrite (nth_indep _ d (g 0%nat)) by now rewrite length_map, length_seq.
  rewrite map_nth, seq_nth by exact Hi. reflexivity.
Qed.

Lemma eye_length (n : nat) : length (eye n) = n.
Proof. unfold eye. now rewrite length_map, length_seq. Qed.

Lemma eye_rows (n : nat) (row : list R) : In row (eye n) -> length row = n.
Proof.
  unfold eye. intros H. apply in_map_iff in H. destruct H as (i & <- & _).
  now rewrite length_map, length_seq.
Qed.

Lemma zip_mul_length (xs ys : list R) :
  length (zip_mul xs ys) = Nat.min (length xs) (length ys).
Proof.
  revert ys. induction xs as [| x xs IH]; intros [| y ys]; simpl; auto.
Qed.

Lemma zip_mul_nth (xs ys : list R) (i : nat) :
  nth i (zip_mul xs ys) 0 = nth i xs 0 * nth i ys 0.
Proof.
  revert ys i. induction xs as [| x xs IH]; intros ys i.
  - destruct i; simpl; lra.
  - destruct ys as [| y ys]; [destruct i; simpl; lra |].
    destruct i as [| i]; simpl; [reflexivity | apply IH].
Qed.

(** Every diagonal entry of a square [eye(n) * sigma] is one times an entry
    of sigma. *)
Lemma eye_times_diagonal (n k : nat) (sg : list R) (cov : list (list R)) :
  eye_times n sg = Ok cov -> square_of k cov = true ->
  Forall (fun c => exists s, In s sg /\ c = 1 * s) (diagonal cov).
Proof.
  intros Hcov Hsq. apply Forall_forall. intros c Hc.
  unfold diagonal in Hc. apply in_map_iff in Hc. destruct Hc as (i & <- & Hi).
  apply in_seq in Hi. destruct Hi as [_ Hi]. rewrite Nat.add_0_l in Hi.
  unfold square_of in Hsq. apply andb_true_iff in Hsq. destruct Hsq as [Hlen Hrows].
  apply Nat.eqb_eq in Hlen.
  assert (Hscalar : forall s, cov = map (map (fun e => e * s)) (eye n) ->
            nth i (nth i cov []) 0 = 1 * s).
  { intros s ->. rewrite length_map, eye_length in Hi.
    unfold eye. rewrite map_map, (nth_map_seq _ n i []) by exact Hi.
    rewrite map_map, (nth_map_seq _ n i 0) by exact Hi.
    now rewrite Nat.eqb_refl. }
  assert (Hvector : cov = map (fun row => zip_mul row sg) (eye n) ->
            length sg = n -> nth i (nth i cov []) 0 = 1 * nth i sg 0).
  { intros -> Hn. rewrite length_map, eye_length in Hi.
    unfold eye. rewrite map_map, (nth_map_seq _ n i []) by exact Hi.
    rewrite zip_mul_nth, (nth_map_seq _ n i 0) by exact Hi.
    now rewrite Nat.eqb_refl. }
  unfold eye_times in Hcov.
  destruct sg as [| s0 [| s1 sg']].
  - (* no entry: only the empty matrix is square *)
    destruct (length (@nil R) =? n)%nat eqn:E.
    + apply Nat.eqb_eq in E. injection Hcov as <-.
      rewrite length_map, eye_length in Hi. simpl in E. lia.
    + destruct (n =? 1)%nat eqn:E1; [| discriminate].
      apply Nat.eqb_eq in E1. subst n. injection Hcov as <-.
      simpl in Hlen, Hrows. subst k. discriminate.
  - injection Hcov as <-. exists s0. split; [now left | now apply Hscalar].
  - destruct (length (s0 :: s1 :: sg') =? n)%nat eqn:E.
    + apply Nat.eqb_eq in E. injection Hcov as Hcov. symmetry in Hcov.
      exists (nth i (s0 :: s1 :: sg') 0). split.
      * apply nth_In. rewrite E. subst cov.
        now rewrite length_map, eye_length in Hi.
      * now apply Hvector.
    + destruct (n =? 1)%nat eqn:E1; [| discriminate].
      apply Nat.eqb_eq in E1. subst n. injection Hcov as <-.
      simpl in Hlen, Hrows. subst k. simpl in Hrows. discriminate.
Qed.

Lemma eye_times_matching (n : nat) (sg : list R) :
  length sg = n ->
  exists cov, eye_times n sg = Ok cov /\ square_of n cov = true.
Proof.
  intros Hn. unfold eye_times.
  assert (Hsq : forall f : list R -> list R,
            (forall row, length row = n -> length (f row) = n) ->
            square_of n (map f (eye n)) = true).
  { intros f Hf. unfold square_of. rewrite length_map, eye_length, Nat.eqb_refl.
    cbn [andb]. apply forallb_forall. intros row Hrow.
    apply in_map_iff in Hrow. destruct Hrow as (row0 & <- & Hin).
    apply Nat.eqb_eq. apply Hf. now apply eye_rows in Hin. }
  destruct sg as [| s0 [| s1 sg']].
  - rewrite <- Hn. cbn [length Nat.eqb]. eexists. split; [reflexivity |].
    reflexivity.
  - eexists. split; [reflexivity |]. apply Hsq.
    intros row Hrow. now rewrite length_map.
  - rewrite Hn, Nat.eqb_refl. eexists. split; [reflexivity |]. apply Hsq.
    intros row Hrow. rewrite zip_mul_length, Hrow, Hn. apply Nat.min_id.
Qed.

Lemma spread_above_floor (sigma_raw : list R) :
  Forall (fun s => s > 1e-7) (map (fun x => softplus x + 1e-7) sigma_raw).
Proof.
  apply Forall_forall. intros s Hs. apply in_map_iff in Hs.
  destruct Hs as (x & <- & _). pose proof (softplus_positive x). lra.
Qed.

Lemma validated_rejects (mean : list R) (cov : list (list R)) :
  square_of (length mean) cov = false \/ Exists (fun c => c <= 0) (diagonal cov) ->
  MultivariateNormal mean cov true = Raise ValueError.
Proof.
  intros [Hsq | Hneg]; unfold MultivariateNormal.
  - now rewrite Hsq.
  - destruct (square_of (length mean) cov); [| reflexivity].
    destruct (forallb Rpositive (diagonal cov)) eqn:E; [| reflexivity].
    exfalso. rewrite forallb_forall in E. apply Exists_exists in Hneg.
    destruct Hneg as (c & Hin & Hc). apply E, Rpositive_true in Hin. lra.
Qed.

Lemma validated_accepts (mean : list R) (cov : list (list R)) (d : distribution) :
  MultivariateNormal mean cov true = Ok d ->
  d = mk_distribution mean cov /\ square_of (length mean) cov = true /\
  Forall (fun c => 0 < c) (diagonal cov).
Proof.
  unfold MultivariateNormal. intros H.
  destruct (square_of (length mean) cov); [| discriminate].
  destruct (forallb Rpositive (diagonal cov)) eqn:E; [| discriminate].
  injection H as <-. repeat split.
  apply Forall_forall. intros c Hc. rewrite forallb_forall in E.
  now apply Rpositive_true, E.
Qed.

Section PolicyWrapper.
Context {C : Collaborators}.

Lemma policy_unfold (x : tensor) (st : State) :
  policy x st
  = rbind (eye_times (action_shape st) (spread st x)) (fun cov =>
    rbind (MultivariateNormal (clamped_mean st x) cov true) (fun d =>
    Ok (d, set_action_distribution
             (set_policy_outputs st (clamped_mean st x) (spread st x) (V st x)) d))).
Proof.
  unfold policy, multi_variate_gaussian_policy, clamped_mean, spread, V.
  destruct (forward (actor_critic st) x) as [[mu_raw sigma_raw] v]. reflexivity.
Qed.

(** What a successful policy query returns and stores. *)
Lemma policy_returns (x : tensor) (st st' : State) (d : distribution) :
  policy x st = Ok (d, st') ->
  eye_times (action_shape st) (spread st x) = Ok (covariance_matrix d) /\
  MultivariateNormal (clamped_mean st x) (covariance_matrix d) true = Ok d /\
  loc d = clamped_mean st x /\
  st' = set_action_distribution
          (set_policy_outputs st (clamped_mean st x) (spread st x) (V st x)) d.
Proof.
  rewrite policy_unfold. intros H.
  destruct (eye_times (action_shape st) (spread st x)) as [cov |]; [| discriminate].
  cbn [rbind] in H.
  destruct (MultivariateNormal (clamped_mean st x) cov true) as [d0 |] eqn:E;
    [| discriminate].
  cbn [rbind] in H. injection H as -> <-.
  destruct (validated_accepts _ _ _ E) as (-> & _ & _). cbn [covariance_matrix loc].
  repeat split. exact E.
Qed.

(** With matching heads the query succeeds. *)
Lemma policy_succeeds (x : tensor) (st : State) :
  heads_match st x ->
  exists d,
    policy x st
    = Ok (d, set_action_distribution
               (set_policy_outputs st (clamped_mean st x) (spread st x) (V st x)) d).
Proof.
  intros [Hmu Hsg]. rewrite policy_unfold.
  destruct (eye_times_matching (action_shape st) (spread st x)) as (cov & Hcov & Hsq).
  { unfold spread. now rewrite length_map. }
  rewrite Hcov. cbn [rbind]. unfold MultivariateNormal.
  assert (Hlen : length (clamped_mean st x) = action_shape st)
    by (unfold clamped_mean; now rewrite length_map).
  rewrite Hlen, Hsq.
  assert (Hpos : forallb Rpositive (diagonal cov) = true).
  { apply forallb_forall. intros c Hc. apply Rpositive_true.
    pose proof (eye_times_diagonal _ _ _ _ Hcov Hsq) as Hd.
    rewrite Forall_forall in Hd. destruct (Hd c Hc) as (s0 & Hin & ->).
    pose proof (spread_above_floor (snd (fst (forward (actor_critic st) x)))) as Hf.
    rewrite Forall_forall in Hf. specialize (Hf s0 Hin). lra. }
  rewrite Hpos. cbn [rbind]. eexists. reflexivity.
Qed.

(** C7.  Every entry of the spread that the wrapper builds is strictly above
    1e-7.  The wrapper hands it to the constructor with validation on: a
    query that returns has stored that spread, built a square covariance
    that fits the mean and whose diagonal is strictly above 1e-7; a query
    that raises does so because the shapes of the heads do not fit.  The
    validated constructor raises on a covariance that does not fit the mean
    and on a diagonal entry that is not positive. *)
Theorem policy_spread_validated (x : tensor) (st : State) :
  Forall (fun sg => sg > 1e-7) (spread st x) /\
  match policy x st with
  | Ok (d, st') =>
      sigma st' = Some (spread st x) /\
      eye_times (action_shape st) (spread st x) = Ok (covariance_matrix d) /\
      MultivariateNormal (loc d) (covariance_matrix d) true = Ok d /\
      square_of (length (loc d)) (covariance_matrix d) = true /\
      Forall (fun c => c > 1e-7) (diagonal (covariance_matrix d))
  | Raise e =>
      ~ heads_match st x /\
      (eye_times (action_shape st) (spread st x) = Raise e \/
       exists cov, eye_times (action_shape st) (spread st x) = Ok cov /\
                   square_of (length (clamped_mean st x)) cov = false /\
                   e = ValueError)
  end /\
  (forall mean cov,
     square_of (length mean) cov = false \/
     Exists (fun c => c <= 0) (diagonal cov) ->
     MultivariateNormal mean cov true = Raise ValueError).
Proof.
  assert (Hfloor : Forall (fun sg => sg > 1e-7) (spread st x))
    by apply spread_above_floor.
  split; [exact Hfloor |]. split; [| exact validated_rejects].
  destruct (policy x st) as [[d st'] | e] eqn:Hp.
  - destruct (policy_returns _ _ _ _ Hp) as (Hcov & Hd & Hloc & ->).
    rewrite Hloc. destruct (validated_accepts _ _ _ Hd) as (_ & Hsq & _).
    repeat split; try assumption.
    pose proof (eye_times_diagonal _ _ _ _ Hcov Hsq) as Hdiag.
    rewrite Forall_forall in Hdiag, Hfloor |- *.
    intros c Hc. destruct (Hdiag c Hc) as (s0 & Hin & ->).
    specialize (Hfloor s0 Hin). lra.
  - split.
    + intros Hm. destruct (policy_succeeds x st Hm) as (d & Hok).
      rewrite Hok in Hp. discriminate.
    + rewrite policy_unfold in Hp.
      destruct (eye_times (action_shape st) (spread st x)) as [cov | e0] eqn:Hcov.
      * right. exists cov. split; [reflexivity |]. cbn [rbind] in Hp.
        unfold MultivariateNormal in Hp.
        destruct (square_of (length (clamped_mean st x)) cov) eqn:Hsq.
        -- exfalso.
           assert (Hpos : forallb Rpositive (diagonal cov) = true).
           { apply forallb_forall. intros c Hc. apply Rpositive_true.
             pose proof (eye_times_diagonal _ _ _ _ Hcov Hsq) as Hd.
             rewrite Forall_forall in Hd, Hfloor.
             destruct (Hd c Hc) as (s0 & Hin & ->).
             specialize (Hfloor s0 Hin). lra. }
           rewrite Hpos in Hp. discriminate.
        -- cbn [rbind] in Hp. injection Hp as <-. now split.
      * left. cbn [rbind] in Hp. injection Hp as <-. reflexivity.
Qed.

(** C8.  The mean of the distribution that a policy query returns is the
    clamped mean head: every component lies in [-1, 1], and the same mean is
    stored on the agent. *)
Theorem policy_mean_clamped (x : tensor) (st st' : State) (d : distribution) :
  policy x st = Ok (d, st') ->
  Forall (fun m => -1 <= m <= 1) (loc d) /\
  length (loc d) = length (fst (fst (forward (actor_critic st) x))) /\
  mu st' = Some (loc d).
Proof.
  intros Hp. destruct (policy_returns _ _ _ _ Hp) as (_ & _ & Hloc & ->).
  rewrite Hloc. split; [| split].
  - unfold clamped_mean. apply Forall_forall. intros m Hm.
    apply in_map_iff in Hm. destruct Hm as (raw & <- & _).
    apply clamp_range. lra.
  - unfold clamped_mean. now rewrite length_map.
  - reflexivity.
Qed.

End PolicyWrapper.

(** ** The one-step TD update *)

Section TDUpdate.
Context {C : Collaborators}.

Lemma mean_singleton (y : R) : mean [y] = y.
Proof. unfold mean. cbn [fold_right length INR]. field. Qed.

(** C2.  With matching heads at both observations learn_td_ac returns, and
    its locals are: V(s_t) from the first policy query, V(s_t+1) from the
    second, td_target = r + gamma * V(s_t+1), td_error = td_target - V(s_t)
    and loss = -mean(log_prob + td_error^2), the mean of a single entry.
    For r = 1, gamma = 0.99, V(s_t) = 0.5 and V(s_t+1) = 0.6 the target is
    1.594 and the error 1.094. *)
Theorem learn_td_ac_update
  (st : State) (s_t : ndarray R) (a_t : tensor) (r : R) (s_tp1 : ndarray R)
  (done : bool) (x_t x_tp1 : tensor) :
  preproc_obs (NdArray s_t) = Ok x_t ->
  preproc_obs (NdArray s_tp1) = Ok x_tp1 ->
  heads_match st x_t -> heads_match st x_tp1 ->
  exists (d : distribution) (st1 : State) (u : td_update) (st' : State),
    policy x_t st = Ok (d, st1) /\
    learn_td_ac s_t a_t r s_tp1 done st = Ok (u, st') /\
    policy_loss u = log_prob d a_t /\
    v_st u = V st x_t /\
    v_stp1 u = V st x_tp1 /\
    td_target u = r + gamma st * V st x_tp1 /\
    td_err u = td_target u - V st x_t /\
    loss u = - mean [log_prob d a_t + td_err u ^ 2] /\
    loss u = - (log_prob d a_t + td_err u ^ 2) /\
    (r = 1 -> gamma st = 0.99 -> V st x_t = 0.5 -> V st x_tp1 = 0.6 ->
     td_target u = 1.594 /\ td_err u = 1.094).
Proof.
  intros Hx_t Hx_tp1 Hm_t Hm_tp1.
  destruct (policy_succeeds x_t st Hm_t) as (d & Hd).
  set (st1 := set_action_distribution
                (set_policy_outputs st (clamped_mean st x_t) (spread st x_t)
                   (V st x_t)) d) in *.
  assert (Hm1 : heads_match st1 x_tp1) by exact Hm_tp1.
  destruct (policy_succeeds x_tp1 st1 Hm1) as (d1 & Hd1).
  exists d, st1. eexists. eexists.
  split; [exact Hd |].
  split.
  { unfold learn_td_ac, bind, lift.
    rewrite Hx_t. cbn [rbind]. rewrite Hd.
    unfold getattr at 1. cbn [value st1 set_action_distribution set_policy_outputs].
    rewrite Hx_tp1. cbn [rbind]. fold st1. rewrite Hd1.
    reflexivity. }
  cbn [policy_loss v_st v_stp1 td_target td_err loss].
  change (V st1 x_tp1) with (V st x_tp1).
  change (gamma (set_action_distribution _ d1)) with (gamma st).
  repeat (split; [reflexivity |]).
  split; [now rewrite mean_singleton |].
  intros -> Hg Hv Hv1. rewrite Hg, Hv, Hv1. split; lra.
Qed.

End TDUpdate.

(** ** The training loop *)

Section TrainingLoop.
Context {C : Collaborators}.

Lemma get_action_effect (o : ndarray R) (st st' : State) (act : tensor) :
  get_action o st = Ok (act, st') ->
  (exists tr, trajectory st' = trajectory st ++ [tr]) /\
  rewards st' = rewards st /\
  global_step_num st' = global_step_num st /\
  writer st' = writer st /\
  env st' = env st /\
  action_shape st' = action_shape st.
Proof.
  intros H. unfold get_action in H. run_method H.
  injection H as <- <-.
  match goal with Hp : policy _ _ = Ok _ |- _ =>
    destruct (policy_returns _ _ _ _ Hp) as (_ & _ & _ & ->) end.
  cbn. repeat split. eexists. reflexivity.
Qed.

Lemma learn_effect (o : ndarray R) (d : bool) (st st' : State) (u : unit) :
  learn o d st = Ok (u, st') ->
  exists td_targets l,
    calculate_n_step_return st (rewards st) o d (gamma st) = Ok td_targets /\
    length td_targets = length (rewards st) /\
    calculate_loss (trajectory st) td_targets = Ok l /\
    st' = set_actor_critic
            (set_writer st (writer st ++ [add_scalar "agent/loss" l (global_step_num st)]))
            (optimizer_step (actor_critic st) l).
Proof.
  intros H. unfold learn in H. run_method H.
  injection H as _ <-.
  match goal with Hc : calculate_n_step_return _ _ _ _ _ = Ok ?t |- _ =>
    exists t; rename Hc into Hcall end.
  eexists. split; [reflexivity |]. split.
  - destruct (calculate_n_step_return_refines st (rewards st) o d (gamma st))
      as (x & _ & E). rewrite E in Hcall. injection Hcall as <-.
    apply backward_returns_length.
  - split; [eassumption | reflexivity].
Qed.

Lemma run_step_effect (thresh : Z) (v v' : episode_vars) (st st' : State) :
  run_step thresh v st = Ok (v', st') ->
  exists act st1 reward losses,
    get_action (obs v) st = Ok (act, st1) /\
    env_step (env st) act = (env st', (obs v', reward, done v')) /\
    step_num v' = S (step_num v) /\
    ep_reward v' = ep_reward v + reward /\
    rewards st' = rewards st ++ [reward] /\
    trajectory st' = trajectory st1 /\
    global_step_num st' = S (global_step_num st) /\
    action_shape st' = action_shape st /\
    writer st'
    = writer st ++ losses
        ++ [add_scalar "agent/reward" reward (S (global_step_num st))] /\
    if trigger thresh (S (step_num v)) (done v')
    then exists td_targets l,
        losses = [add_scalar "agent/loss" l (global_step_num st)] /\
        length td_targets = length (rewards st') /\
        calculate_loss (trajectory st') td_targets = Ok l
    else losses = [] /\ actor_critic st' = actor_critic st1.
Proof.
  intros H. unfold run_step in H. run_method H.
  - injection H as <- <-.
    match goal with Hg : get_action _ _ = Ok _ |- _ =>
      destruct (get_action_effect _ _ _ _ Hg) as (_ & Hrw & Hgs & Hw & He & Ha) end.
    match goal with Hl : learn _ _ _ = Ok _ |- _ =>
      destruct (learn_effect _ _ _ _ _ Hl) as (td & l & _ & Hlen & Hloss & ->) end.
    rewrite He in *.
    exists t, s0, r. eexists. split; [reflexivity |].
    cbn in Hlen, Hloss |- *. rewrite Hrw, Hgs, Hw, Ha in *.
    repeat (split; [reflexivity || eassumption |]).
    split; [rewrite <- app_assoc; reflexivity |].
    unfold trigger.
    match goal with Hb : _ || _ = true |- _ => rewrite Hb end.
    exists td, l. repeat split; assumption.
  - injection H as <- <-.
    match goal with Hg : get_action _ _ = Ok _ |- _ =>
      destruct (get_action_effect _ _ _ _ Hg) as (_ & Hrw & Hgs & Hw & He & Ha) end.
    rewrite He in *.
    exists t, s0, r, []. split; [reflexivity |].
    cbn. rewrite Hrw, Hgs, Hw, Ha.
    repeat (split; [reflexivity || eassumption |]).
    unfold trigger.
    match goal with Hb : _ || _ = false |- _ => rewrite Hb end.
    split; reflexivity.
Qed.

Lemma get_action_succeeds (o : ndarray R) (st : State) :
  network_fits (action_shape st) -> sampler_fits ->
  exists act st', get_action o st = Ok (act, st').
Proof.
  intros Hnet Hsam. unfold get_action, bind, lift.
  rewrite preproc_obs_ndarray. cbn [rbind].
  match goal with |- context [policy ?x st] =>
    destruct (policy_succeeds x st (Hnet _ x)) as (d & ->) end.
  unfold getattr, gets, modify, ret.
  cbn [value rng set_action_distribution set_policy_outputs].
  pose proof (Hsam (rng st) d) as Hshape.
  destruct (sample (rng st) d) as [action g'].
  cbn [fst] in Hshape. rewrite (process_action_vector _ _ Hshape).
  cbn [rbind]. eexists. eexists. reflexivity.
Qed.

Lemma learn_succeeds (o : ndarray R) (d : bool) (st : State) :
  trajectory st <> [] -> length (trajectory st) = length (rewards st) ->
  exists st', learn o d st = Ok (tt, st').
Proof.
  intros Hne Hlen. unfold learn, bind, gets, lift, modify, writer_add_scalar.
  destruct (calculate_n_step_return_refines st (rewards st) o d (gamma st))
    as (x & _ & ->). cbn [rbind].
  unfold calculate_loss. destruct (trajectory st) as [| tr0 trs] eqn:Etr;
    [contradiction |].
  unfold broadcast2. rewrite length_map, backward_returns_length, Hlen, Nat.eqb_refl.
  cbn [rbind]. eexists. reflexivity.
Qed.

Lemma run_step_succeeds (thresh : Z) (v : episode_vars) (st : State) :
  network_fits (action_shape st) -> sampler_fits ->
  length (trajectory st) = length (rewards st) ->
  exists v' st',
    run_step thresh v st = Ok (v', st') /\
    length (trajectory st') = length (rewards st').
Proof.
  intros Hnet Hsam Hlen.
  destruct (get_action_succeeds (obs v) st Hnet Hsam) as (act & st1 & Hact).
  destruct (get_action_effect _ _ _ _ Hact) as ((tr & Htr) & Hrw & Hgs & Hw & He & Ha).
  unfold run_step, bind. rewrite Hact.
  unfold gets at 1. destruct (env_step (env st1) act) as [e' [[next_obs reward] dn]].
  unfold modify at 1 2.
  set (st2 := set_rewards (set_env st1 e') (rewards (set_env st1 e') ++ [reward])).
  assert (Hbal : length (trajectory st2) = length (rewards st2)).
  { subst st2. cbn. rewrite Htr, Hrw, !length_app, Hlen. reflexivity. }
  destruct ((thresh <=? Z.of_nat (S (step_num v)))%Z || dn).
  - destruct (learn_succeeds next_obs dn st2) as (st3 & Hl).
    + subst st2. cbn. rewrite Htr. now destruct (trajectory st).
    + exact Hbal.
    + rewrite Hl. destruct (learn_effect _ _ _ _ _ Hl) as (td & l & _ & _ & _ & E).
      eexists. eexists. split; [reflexivity |].
      rewrite E. exact Hbal.
  - eexists. eexists. split; [reflexivity |]. exact Hbal.
Qed.

Lemma learning_steps_app (w1 w2 : list scalar_event) :
  learning_steps (w1 ++ w2) = learning_steps w1 ++ learning_steps w2.
Proof. unfold learning_steps. now rewrite filter_app, map_app. Qed.

(** The loop only moves forward, and it stops at once on a finished
    episode. *)
Lemma while_not_done_progress (passes : nat) (thresh : Z)
  (v v' : episode_vars) (st st' : State) :
  while_not_done passes thresh v st = Ok (v', st') ->
  (v' = v /\ st' = st) \/ (step_num v < step_num v')%nat.
Proof.
  revert v st. induction passes as [| passes IH]; intros v st H.
  - cbn [while_not_done] in H. destruct (done v); injection H as <- <-; now left.
  - cbn [while_not_done] in H. destruct (done v); [injection H as <- <-; now left |].
    unfold bind in H.
    destruct (run_step thresh v st) as [[v1 st1] |] eqn:E; [| discriminate].
    destruct (run_step_effect _ _ _ _ _ E) as (_ & _ & _ & _ & _ & _ & Hk & _).
    right. destruct (IH _ _ H) as [[-> _] | Hlt]; lia.
Qed.

Lemma while_not_done_trace (passes : nat) (thresh : Z)
  (v v' : episode_vars) (st st' : State) :
  while_not_done passes thresh v st = Ok (v', st') ->
  exists new,
    writer st' = writer st ++ new /\
    learning_steps new
    = map (fun k => (global_step_num st + (k - S (step_num v)))%nat)
        (filter (fun k => trigger thresh k (done v' && (k =? step_num v')%nat))
           (seq (S (step_num v)) (step_num v' - step_num v))).
Proof.
  revert v st. induction passes as [| passes IH]; intros v st H.
  - cbn [while_not_done] in H.
    assert (E : v' = v /\ st' = st) by (destruct (done v); injection H as <- <-; now split).
    destruct E as [-> ->]. exists []. rewrite app_nil_r, Nat.sub_diag. now split.
  - cbn [while_not_done] in H. destruct (done v) eqn:Hdone.
    { injection H as <- <-. exists []. rewrite app_nil_r, Nat.sub_diag. now split. }
    unfold bind in H.
    destruct (run_step thresh v st) as [[v1 st1] |] eqn:E; [| discriminate].
    destruct (run_step_effect _ _ _ _ _ E)
      as (act & st0 & reward & losses & _ & _ & Hk & _ & _ & _ & Hg & _ & Hw & Hfire).
    destruct (IH _ _ H) as (new1 & Hw1 & Hsteps1).
    pose proof (while_not_done_progress _ _ _ _ _ _ H) as Hprog.
    exists (losses ++ [add_scalar "agent/reward" reward (S (global_step_num st))] ++ new1).
    split; [rewrite Hw1, Hw, <- !app_assoc; reflexivity |].
    rewrite !learning_steps_app, Hsteps1.
    assert (Hle : (step_num v1 <= step_num v')%nat)
      by (destruct Hprog as [[-> _] | ?]; lia).
    replace (step_num v' - step_num v)%nat with (S (step_num v' - step_num v1)) by lia.
    cbn [seq filter]. rewrite <- Hk.
    (* the flag that the pass saw is the flag of the formula *)
    assert (Hflag : trigger thresh (step_num v1) (done v' && (step_num v1 =? step_num v')%nat)
                    = trigger thresh (step_num v1) (done v1)).
    { unfold trigger. f_equal. destruct Hprog as [[-> _] | Hlt].
      - now rewrite Nat.eqb_refl, andb_true_r.
      - assert (Hd1 : done v1 = false).
        { destruct passes; cbn [while_not_done] in H; destruct (done v1); try reflexivity;
            injection H as Hv _; rewrite Hv in Hlt; lia. }
        rewrite Hd1.
        assert (Hne : (step_num v1 =? step_num v')%nat = false)
          by (apply Nat.eqb_neq; lia).
        rewrite Hne. apply andb_false_r. }
    rewrite Hflag, Hk in *.
    assert (Htail :
      map (fun k => (global_step_num st1 + (k - S (S (step_num v))))%nat)
        (filter (fun k => trigger thresh k (done v' && (k =? step_num v')%nat))
           (seq (S (S (step_num v))) (step_num v' - S (step_num v))))
      = map (fun k => (global_step_num st + (k - S (step_num v)))%nat)
          (filter (fun k => trigger thresh k (done v' && (k =? step_num v')%nat))
             (seq (S (S (step_num v))) (step_num v' - S (step_num v))))).
    { apply map_ext_in. intros k Hin. apply filter_In in Hin. destruct Hin as [Hin _].
      apply in_seq in Hin. lia. }
    rewrite Htail.
    destruct (trigger thresh (S (step_num v)) (done v1)).
    + destruct Hfire as (td & l & -> & _). cbn [map]. rewrite Nat.sub_diag, Nat.add_0_r.
      reflexivity.
    + destruct Hfire as [-> _]. reflexivity.
Qed.

(** C9, amended.  Whenever the loop of an episode returns, after the passes
    for the steps k0+1 .. k of the episode, learn has logged a loss exactly
    at those steps whose count is at least the threshold and at the step
    that ended the episode, once each and in order, and at no other step.
    The log stamps a step of the episode with the global step number at
    which its pass began. *)
Theorem learning_fires_on_trigger (passes : nat) (n_step_learning_step_thresh : Z)
  (v v' : episode_vars) (st st' : State) :
  while_not_done passes n_step_learning_step_thresh v st = Ok (v', st') ->
  exists new,
    writer st' = writer st ++ new /\
    learning_steps new
    = map (fun k => (global_step_num st + (k - S (step_num v)))%nat)
        (filter
           (fun k => (n_step_learning_step_thresh <=? Z.of_nat k)%Z
                     || (done v' && (k =? step_num v')%nat))
           (seq (S (step_num v)) (step_num v' - step_num v))).
Proof. exact (while_not_done_trace passes n_step_learning_step_thresh v v' st st'). Qed.

End TrainingLoop.

(** ** The loop in the small concrete world *)

Lemma demo_network_fits : @network_fits demo_world 3.
Proof. intros p x. split; reflexivity. Qed.

Lemma demo_sampler_fits : @sampler_fits demo_world.
Proof. intros g d. reflexivity. Qed.

Lemma demo_run_step (thresh : Z) (v : @episode_vars) (st : @State demo_world) :
  action_shape st = 3%nat ->
  length (trajectory st) = length (rewards st) ->
  exists v' st',
    run_step thresh v st = Ok (v', st') /\
    done v' = (2 <=? env st)%nat /\
    env st' = S (env st) /\
    step_num v' = S (step_num v) /\
    rewards st' = rewards st ++ [1] /\
    length (trajectory st') = length (rewards st') /\
    action_shape st' = 3%nat /\
    global_step_num st' = S (global_step_num st).
Proof.
  intros Ha Hbal.
  destruct (run_step_succeeds thresh v st) as (v' & st' & Hrun & Hbal').
  { rewrite Ha. exact demo_network_fits. }
  { exact demo_sampler_fits. }
  { exact Hbal. }
  exists v', st'. split; [exact Hrun |].
  destruct (run_step_effect _ _ _ _ _ Hrun)
    as (act & st1 & reward & losses & _ & Henv & Hk & _ & Hrw & _ & Hg & Hsh & _).
  cbn [env_step demo_world] in Henv. injection Henv as He Ho Hr Hd.
  subst reward. rewrite <- Hd, <- He, Hsh, Ha. repeat split; assumption.
Qed.

Lemma demo_episode (thresh : Z) :
  exists v1 st1 v2 st2 v3 st3,
    run_step (C := demo_world) thresh demo_start (demo_state 0.99) = Ok (v1, st1) /\
    run_step thresh v1 st1 = Ok (v2, st2) /\
    done v3 = true /\ step_num v1 = 1%nat /\ step_num v3 = 3%nat /\
    rewards st1 = [1] /\ rewards st2 = [1; 1] /\
    length (trajectory st1) = 1%nat /\ length (trajectory st2) = 2%nat /\
    global_step_num st1 = 1%nat /\
    while_not_done 3 thresh demo_start (demo_state 0.99) = Ok (v3, st3).
Proof.
  destruct (demo_run_step thresh demo_start (demo_state 0.99) eq_refl eq_refl)
    as (v1 & st1 & H1 & Hd1 & He1 & Hk1 & Hr1 & Hb1 & Ha1 & Hg1).
  destruct (demo_run_step thresh v1 st1 Ha1 Hb1)
    as (v2 & st2 & H2 & Hd2 & He2 & Hk2 & Hr2 & Hb2 & Ha2 & Hg2).
  destruct (demo_run_step thresh v2 st2 Ha2 Hb2)
    as (v3 & st3 & H3 & Hd3 & He3 & Hk3 & Hr3 & Hb3 & Ha3 & Hg3).
  cbn in Hd1, He1, Hk1, Hr1, Hg1. rewrite He1 in Hd2, He2. cbn in Hd2.
  rewrite He2 in Hd3. cbn in Hd3.
  rewrite Hk1 in Hk2. rewrite Hk2 in Hk3.
  rewrite Hr1 in Hr2, Hb1. rewrite Hr2 in Hb2.
  exists v1, st1, v2, st2, v3, st3. repeat (split; [assumption |]).
  cbn [while_not_done demo_start done]. unfold bind.
  rewrite H1, Hd1, H2, Hd2, H3, Hd3. reflexivity.
Qed.

(** C4.  In the small world with threshold 1 learn runs in the first pass
    and in the second.  After the first pass the reward buffer still holds
    its reward and the trajectory its transition; the second call of learn
    is handed both rewards and both transitions, the ones the first call
    had already consumed included. *)
Theorem buffers_survive_learning :
  exists v1 st1 v2 st2,
    run_step (C := demo_world) 1 demo_start (demo_state 0.99) = Ok (v1, st1) /\
    learning_steps (writer st1) = [0%nat] /\
    rewards st1 = [1] /\ length (trajectory st1) = 1%nat /\
    run_step 1 v1 st1 = Ok (v2, st2) /\
    learning_steps (writer st2) = [0%nat; 1%nat] /\
    rewards st2 = [1; 1] /\ length (trajectory st2) = 2%nat /\
    exists td_targets l,
      In (add_scalar "agent/loss" l 1) (writer st2) /\
      length td_targets = 2%nat /\
      calculate_loss (trajectory st2) td_targets = Ok l.
Proof.
  destruct (demo_episode 1)
    as (v1 & st1 & v2 & st2 & v3 & st3
        & H1 & H2 & _ & Hk1 & _ & Hr1 & Hr2 & Ht1 & Ht2 & Hg1 & _).
  destruct (run_step_effect _ _ _ _ _ H1)
    as (act1 & mid1 & r1 & losses1 & _ & _ & _ & _ & _ & _ & _ & _ & Hw1 & Hfire1).
  destruct (run_step_effect _ _ _ _ _ H2)
    as (act2 & mid2 & r2 & losses2 & _ & _ & _ & _ & _ & _ & _ & _ & Hw2 & Hfire2).
  rewrite Hk1 in Hfire2. cbn in Hfire1, Hfire2, Hw1.
  destruct Hfire1 as (td1 & l1 & -> & _).
  destruct Hfire2 as (td2 & l2 & -> & Hlen2 & Hloss2).
  rewrite Hg1 in *. rewrite Hr2 in Hlen2.
  exists v1, st1, v2, st2.
  split; [exact H1 |]. split; [rewrite Hw1; reflexivity |].
  split; [exact Hr1 |]. split; [exact Ht1 |]. split; [exact H2 |].
  split; [rewrite Hw2, Hw1; reflexivity |].
  split; [exact Hr2 |]. split; [exact Ht2 |].
  exists td2, l2. split; [| split; assumption].
  rewrite Hw2. apply in_or_app. right. now left.
Qed.

(** ** Instances *)

Lemma preproc_demo_observation (y : R) :
  preproc_obs (NdArray (demo_observation y)) = Ok (mk_array [1%nat; 1%nat] [y]).
Proof. reflexivity. Qed.

Lemma demo_heads_match (x : tensor) : @heads_match demo_world (demo_state 0.99) x.
Proof. split; reflexivity. Qed.

Lemma learn_td_ac_update_witness :
  exists u st',
    learn_td_ac (C := demo_world) (demo_observation 0.5) raw_action 1
      (demo_observation 0.6) false (demo_state 0.99) = Ok (u, st') /\
    td_target u = 1.594 /\ td_err u = 1.094.
Proof.
  destruct (learn_td_ac_update (C := demo_world) (demo_state 0.99)
              (demo_observation 0.5) raw_action 1 (demo_observation 0.6) false
              _ _ (preproc_demo_observation 0.5) (preproc_demo_observation 0.6)
              (demo_heads_match _) (demo_heads_match _))
    as (d & st1 & u & st' & _ & Hrun & _ & _ & _ & _ & _ & _ & _ & Hscenario).
  exists u, st'. split; [exact Hrun |].
  apply Hscenario; reflexivity.
Defined.

Lemma policy_mean_clamped_witness :
  exists d st',
    policy (C := demo_world) (mk_array [1%nat; 1%nat] [0.5]) (demo_state 0.99)
    = Ok (d, st') /\
    Forall (fun m => -1 <= m <= 1) (loc d) /\ length (loc d) = 3%nat.
Proof.
  destruct (policy_succeeds (C := demo_world) (mk_array [1%nat; 1%nat] [0.5])
              (demo_state 0.99) (demo_heads_match _)) as (d & Hd).
  eexists. eexists. split; [exact Hd |].
  pose proof (policy_mean_clamped _ _ _ _ Hd) as (Hrange & Hlen & _).
  split; [exact Hrange | exact Hlen].
Defined.

Lemma learning_fires_on_trigger_witness :
  exists v' st' new,
    while_not_done (C := demo_world) 3 5 demo_start (demo_state 0.99) = Ok (v', st') /\
    writer st' = new /\ learning_steps new = [2%nat].
Proof.
  destruct (demo_episode 5)
    as (v1 & st1 & v2 & st2 & v3 & st3
        & _ & _ & Hd3 & _ & Hk3 & _ & _ & _ & _ & _ & Hrun).
  destruct (learning_fires_on_trigger _ _ _ _ _ _ Hrun) as (new & Hw & Hsteps).
  exists v3, st3, new. split; [exact Hrun |]. split; [exact Hw |].
  rewrite Hsteps, Hd3, Hk3. reflexivity.
Defined.

(** C9, as stated, fails in the small world with threshold 1: the count
    reaches the threshold at the first step and the episode ends with the
    third, yet learn also runs at the second step. *)
Lemma learning_fires_past_threshold :
  ~ (forall (passes : nat) (thresh : Z) (v v' : episode_vars)
       (st st' : @State demo_world),
       while_not_done passes thresh v st = Ok (v', st') ->
       exists new,
         writer st' = writer st ++ new /\
         learning_steps new
         = map (fun k => (global_step_num st + (k - S (step_num v)))%nat)
             (filter
                (fun k => claimed_trigger thresh k
                            (done v' && (k =? step_num v')%nat))
                (seq (S (step_num v)) (step_num v' - step_num v)))).
Proof.
  intros Hclaim.
  destruct (demo_episode 1)
    as (v1 & st1 & v2 & st2 & v3 & st3
        & _ & _ & Hd3 & _ & Hk3 & _ & _ & _ & _ & _ & Hrun).
  destruct (Hclaim _ _ _ _ _ _ Hrun) as (new & Hw & Hsteps).
  destruct (while_not_done_trace _ _ _ _ _ _ Hrun) as (new' & Hw' & Hsteps').
  rewrite Hw' in Hw. apply app_inv_head in Hw. subst new'.
  rewrite Hsteps', Hd3, Hk3 in Hsteps. discriminate Hsteps.
Qed.

(** * Further properties of the script *)

(** ** The n-step return: closed form, windows, bounds *)

Lemma backward_returns_closed (discount G_n : R) (rewards : list R) (t : nat) :
  (t < length rewards)%nat ->
  nth t (backward_returns discount G_n rewards) 0
  = discounted_sum discount (skipn t rewards)
    + discount ^ (length rewards - t) * G_n.
Proof.
  revert t. induction rewards as [| r later IH]; intros t Ht; simpl in Ht; [lia |].
  destruct t as [| t].
  - cbn [nth skipn backward_returns length Nat.sub].
    rewrite discounted_sum_cons.
    destruct later as [| r' later'].
    + cbn [backward_returns hd length pow]. unfold discounted_sum. simpl. lra.
    + specialize (IH 0%nat ltac:(simpl; lia)).
      cbn [skipn] in IH. rewrite Nat.sub_0_r in IH.
      change (hd G_n (backward_returns discount G_n (r' :: later')))
        with (nth 0 (backward_returns discount G_n (r' :: later')) 0).
      rewrite IH. cbn [pow]. lra.
  - cbn [nth skipn backward_returns length]. rewrite IH by lia.
    replace (S (length later) - S t)%nat with (length later - t)%nat by lia.
    reflexivity.
Qed.

Lemma backward_returns_app (discount G_n : R) (earlier later : list R) :
  backward_returns discount G_n (earlier ++ later)
  = backward_returns discount
      (hd G_n (backward_returns discount G_n later)) earlier
    ++ backward_returns discount G_n later.
Proof.
  induction earlier as [| r earlier IH]; [reflexivity |].
  cbn [app backward_returns]. rewrite IH. cbn [app]. f_equal. f_equal. f_equal.
  destruct earlier as [| r' earlier']; reflexivity.
Qed.

Lemma backward_returns_bounded (discount G_n B : R) (rewards : list R) :
  0 <= discount < 1 ->
  Forall (fun r => Rabs r <= B) rewards ->
  Rabs G_n <= B / (1 - discount) ->
  Forall (fun g => Rabs g <= B / (1 - discount))
    (backward_returns discount G_n rewards)
  /\ Rabs (hd G_n (backward_returns discount G_n rewards)) <= B / (1 - discount).
Proof.
  intros Hd Hr Hg. induction Hr as [| r later Hr0 Hr IH].
  - split; [constructor | exact Hg].
  - destruct IH as [IHall IHhd].
    cbn [backward_returns hd].
    set (h := hd G_n (backward_returns discount G_n later)) in *.
    assert (Hb : Rabs (r + discount * h) <= B / (1 - discount)).
    { eapply Rle_trans; [apply Rabs_triang |].
      rewrite Rabs_mult, (Rabs_pos_eq discount) by lra.
      assert (Hm : discount * Rabs h <= discount * (B / (1 - discount)))
        by (apply Rmult_le_compat_l; lra).
      replace (B / (1 - discount))
        with (B + discount * (B / (1 - discount))) by (field; lra).
      lra. }
    split; [constructor; assumption | exact Hb].
Qed.

Section ReturnWindows.
Context {C : Collaborators}.

(** X1.  Closed form of the returns: the return at index t is the
    discounted sum of the rewards from t on plus gamma^(n-t) times the
    bootstrap value.  So two networks that value the final state
    differently give returns that differ by gamma^(n-t) times the
    difference of the values, at every index t. *)
Theorem n_step_return_closed_form
  (self : State) (n_step_rewards : list R) (final_state : ndarray R)
  (done : bool) (gamma_arg : R) :
  exists (x : tensor) (G : list R),
    preproc_obs (NdArray final_state) = Ok x /\
    calculate_n_step_return self n_step_rewards final_state done gamma_arg = Ok G /\
    (forall t, (t < length n_step_rewards)%nat ->
       nth t G 0
       = discounted_sum (gamma self) (skipn t n_step_rewards)
         + gamma self ^ (length n_step_rewards - t)
           * (if done then 0 else V self x)) /\
    (forall (other : State) (gamma_arg' : R),
       gamma other = gamma self ->
       exists G',
         calculate_n_step_return other n_step_rewards final_state false gamma_arg'
         = Ok G' /\
         (done = false ->
          forall t, (t < length n_step_rewards)%nat ->
            nth t G' 0 - nth t G 0
            = gamma self ^ (length n_step_rewards - t) * (V other x - V self x))).
Proof.
  destruct (calculate_n_step_return_refines self n_step_rewards final_state
              done gamma_arg) as (x & Hx & Hcall).
  exists x. eexists. split; [exact Hx |]. split; [exact Hcall |]. split.
  - intros t Ht. apply backward_returns_closed. exact Ht.
  - intros other gamma_arg' Hg.
    destruct (calculate_n_step_return_refines other n_step_rewards final_state
                false gamma_arg') as (x' & Hx' & Hcall').
    rewrite Hx in Hx'. injection Hx' as <-.
    eexists. split; [exact Hcall' |].
    intros -> t Ht. rewrite !backward_returns_closed by exact Ht.
    rewrite Hg. unfold V. lra.
Qed.

(** X2.  Windows compose: the returns of the rewards [earlier ++ later] end
    with the returns of [later] alone, and begin with the returns of
    [earlier] bootstrapped from the first return of [later] (from the
    bootstrap value itself when [later] is empty). *)
Theorem n_step_return_of_joined_windows
  (self : State) (earlier later : list R) (final_state : ndarray R)
  (done : bool) (gamma_arg : R) :
  exists (x : tensor) (G_later G : list R),
    preproc_obs (NdArray final_state) = Ok x /\
    calculate_n_step_return self later final_state done gamma_arg = Ok G_later /\
    calculate_n_step_return self (earlier ++ later) final_state done gamma_arg
    = Ok G /\
    G = n_step_loop (gamma self) (rev earlier)
          (hd (if done then 0 else V self x) G_later) []
        ++ G_later /\
    skipn (length earlier) G = G_later.
Proof.
  destruct (calculate_n_step_return_refines self later final_state
              done gamma_arg) as (x & Hx & Hlater).
  destruct (calculate_n_step_return_refines self (earlier ++ later) final_state
              done gamma_arg) as (x' & Hx' & Hall).
  rewrite Hx in Hx'. injection Hx' as <-.
  exists x. eexists. eexists. split; [exact Hx |].
  split; [exact Hlater |]. split; [exact Hall |].
  rewrite n_step_loop_refines. unfold V.
  rewrite backward_returns_app. split; [reflexivity |].
  rewrite skipn_app, backward_returns_length, Nat.sub_diag.
  rewrite skipn_all2 by (rewrite backward_returns_length; lia).
  reflexivity.
Qed.

(** X3.  Returns stay bounded: with a discount in [0, 1), rewards bounded
    by B in absolute value and a bootstrap value bounded by B / (1 - gamma)
    (always so for a terminal window), every return is bounded by
    B / (1 - gamma) in absolute value. *)
Theorem n_step_return_bounded
  (self : State) (n_step_rewards : list R) (final_state : ndarray R)
  (done : bool) (gamma_arg B : R) (x : tensor) :
  0 <= gamma self < 1 ->
  Forall (fun r => Rabs r <= B) n_step_rewards ->
  preproc_obs (NdArray final_state) = Ok x ->
  done = true \/ Rabs (V self x) <= B / (1 - gamma self) ->
  exists G,
    calculate_n_step_return self n_step_rewards final_state done gamma_arg = Ok G /\
    Forall (fun g => Rabs g <= B / (1 - gamma self)) G.
Proof.
  intros Hg Hr Hx Hboot.
  destruct (calculate_n_step_return_refines self n_step_rewards final_state
              done gamma_arg) as (x' & Hx' & Hcall).
  rewrite Hx in Hx'. injection Hx' as <-.
  eexists. split; [exact Hcall |].
  destruct n_step_rewards as [| r later]; [constructor |].
  apply backward_returns_bounded; [exact Hg | exact Hr |].
  assert (HB : 0 <= B / (1 - gamma self)).
  { apply Forall_inv in Hr. pose proof (Rabs_pos r).
    apply Rmult_le_pos; [lra |]. left. apply Rinv_0_lt_compat. lra. }
  destruct Hboot as [-> | Hv].
  - rewrite Rabs_R0. exact HB.
  - destruct done; [rewrite Rabs_R0; exact HB | exact Hv].
Qed.

End ReturnWindows.

Lemma n_step_return_bounded_witness :
  exists G,
    calculate_n_step_return (C := demo_world) (demo_state 0.5) [1; -1; 1]
      (demo_observation 0) true 0.5 = Ok G /\
    Forall (fun g => Rabs g <= 1 / (1 - 0.5)) G.
Proof.
  apply (n_step_return_bounded (C := demo_world) (demo_state 0.5) [1; -1; 1]
           (demo_observation 0) true 0.5 1 (mk_array [1%nat; 1%nat] [0])).
  - cbn [gamma demo_state]. lra.
  - repeat constructor; unfold Rabs; destruct Rcase_abs; lra.
  - apply preproc_demo_observation.
  - left. reflexivity.
Defined.

(** ** The loss *)

Lemma smooth_l1_nonneg (x y : R) : 0 <= smooth_l1 x y.
Proof.
  unfold smooth_l1. pose proof (Rabs_pos (x - y)).
  destruct (Rlt_dec (Rabs (x - y)) 1); nra.
Qed.

Lemma smooth_l1_le_abs (x y : R) : smooth_l1 x y <= Rabs (x - y).
Proof.
  unfold smooth_l1. pose proof (Rabs_pos (x - y)).
  destruct (Rlt_dec (Rabs (x - y)) 1); nra.
Qed.

Lemma smooth_l1_same (x : R) : smooth_l1 x x = 0.
Proof.
  unfold smooth_l1. replace (x - x) with 0 by lra. rewrite Rabs_R0.
  destruct (Rlt_dec 0 1); lra.
Qed.

Lemma sum_le_pointwise {A : Type} (f g : A -> R) (l : list A) :
  (forall x, In x l -> f x <= g x) ->
  fold_right Rplus 0 (map f l) <= fold_right Rplus 0 (map g l).
Proof.
  induction l as [| x l IH]; intros H; cbn [map fold_right]; [lra |].
  pose proof (H x (or_introl eq_refl)).
  assert (fold_right Rplus 0 (map f l) <= fold_right Rplus 0 (map g l))
    by (apply IH; intros z Hz; apply H; now right).
  lra.
Qed.

Lemma mean_le_pointwise {A : Type} (f g : A -> R) (l : list A) :
  l <> [] ->
  (forall x, In x l -> f x <= g x) ->
  mean (map f l) <= mean (map g l).
Proof.
  intros Hne H. unfold mean. rewrite !length_map.
  apply Rmult_le_compat_r; [| now apply sum_le_pointwise].
  left. apply Rinv_0_lt_compat. apply lt_0_INR.
  destruct l; [contradiction | simpl; lia].
Qed.

Lemma mean_zero {A : Type} (l : list A) : mean (map (fun _ => 0) l) = 0.
Proof.
  unfold mean. replace (fold_right Rplus 0 (map (fun _ : A => 0) l)) with 0.
  - unfold Rdiv. apply Rmult_0_l.
  - induction l as [| x l IH]; cbn [map fold_right]; [reflexivity | rewrite <- IH; lra].
Qed.

Lemma broadcast2_same_length (xs ys : list R) :
  length xs = length ys -> broadcast2 xs ys = Ok (combine xs ys).
Proof. intros H. unfold broadcast2. now rewrite H, Nat.eqb_refl. Qed.

(** X4.  When calculate_loss returns and when it raises: an empty
    trajectory is a type error; a non-empty one gives a loss exactly when
    the values and the targets have the same length or one of them has
    length one, and a run-time error otherwise. *)
Theorem calculate_loss_outcomes (trajectory : list Transition) (td_targets : list R) :
  (trajectory = [] -> calculate_loss trajectory td_targets = Raise TypeError) /\
  (trajectory <> [] ->
   (length trajectory = length td_targets \/ length trajectory = 1%nat
    \/ length td_targets = 1%nat ->
    exists l, calculate_loss trajectory td_targets = Ok l) /\
   (length trajectory <> length td_targets -> length trajectory <> 1%nat ->
    length td_targets <> 1%nat ->
    calculate_loss trajectory td_targets = Raise RuntimeError)).
Proof.
  split; [intros ->; reflexivity |].
  intros Hne. destruct trajectory as [| tr0 trs]; [contradiction |].
  unfold calculate_loss, broadcast2. rewrite length_map. split.
  - intros Hlen.
    destruct (length (tr0 :: trs) =? length td_targets)%nat eqn:E;
      [eexists; reflexivity |].
    apply Nat.eqb_neq in E.
    destruct trs as [| tr1 trs']; [eexists; reflexivity |].
    destruct td_targets as [| y [| y' ys]]; cbn [length] in *;
      try (eexists; reflexivity); lia.
  - intros H1 H2 H3. apply Nat.eqb_neq in H1. rewrite H1.
    destruct trs as [| tr1 trs']; [cbn [length] in H2; lia |].
    destruct td_targets as [| y [| y' ys]]; cbn [length] in *;
      try reflexivity; lia.
Qed.

(** X5.  For as many targets as transitions the loss is the negated mean
    log-probability plus the mean Huber term of the value errors.  It is
    never below the negated mean log-probability, never above it by more
    than the mean absolute value error, and equal to it when every value
    equals its target. *)
Theorem calculate_loss_bounds (trajectory : list Transition) (td_targets : list R) :
  trajectory <> [] -> length trajectory = length td_targets ->
  let actor_loss := - mean (map log_prob_a trajectory) in
  let errors := combine (map value_s trajectory) td_targets in
  exists l,
    calculate_loss trajectory td_targets = Ok l /\
    l = actor_loss + mean (map (fun p => smooth_l1 (fst p) (snd p)) errors) /\
    actor_loss <= l /\
    l <= actor_loss + mean (map (fun p => Rabs (fst p - snd p)) errors) /\
    (map value_s trajectory = td_targets -> l = actor_loss).
Proof.
  intros Hne Hlen actor_loss errors.
  assert (Herr : errors <> []).
  { subst errors. destruct trajectory as [| t0 ts]; [contradiction |].
    destruct td_targets; [discriminate | discriminate]. }
  eexists. split.
  { unfold calculate_loss. destruct trajectory as [| t0 ts]; [contradiction |].
    rewrite broadcast2_same_length by (rewrite length_map; exact Hlen).
    reflexivity. }
  fold actor_loss. fold errors. split; [reflexivity |]. split; [| split].
  - pose proof (mean_le_pointwise (fun _ : R * R => 0)
                  (fun p => smooth_l1 (fst p) (snd p)) errors Herr
                  (fun p _ => smooth_l1_nonneg (fst p) (snd p))) as H.
    rewrite mean_zero in H. lra.
  - pose proof (mean_le_pointwise (fun p => smooth_l1 (fst p) (snd p))
                  (fun p : R * R => Rabs (fst p - snd p)) errors Herr
                  (fun p _ => smooth_l1_le_abs (fst p) (snd p))) as H.
    lra.
  - intros Heq.
    assert (Hz : map (fun p => smooth_l1 (fst p) (snd p)) errors
                 = map (fun _ => 0) errors).
    { apply map_ext_in. intros [u w] Hin. subst errors. rewrite Heq in Hin.
      cbn [fst snd].
      assert (u = w).
      { clear - Hin. induction td_targets as [| z zs IH]; [contradiction |].
        destruct Hin as [E | Hin]; [now injection E as <- <- | now apply IH]. }
      subst w. apply smooth_l1_same. }
    rewrite Hz, mean_zero. lra.
Qed.

Lemma calculate_loss_bounds_witness :
  exists l,
    calculate_loss [mk_transition raw_action 2 raw_action (-1)] [2] = Ok l /\
    l = - mean [-1].
Proof.
  destruct (calculate_loss_bounds [mk_transition raw_action 2 raw_action (-1)] [2]
              ltac:(discriminate) eq_refl) as (l & Hl & _ & _ & _ & Heq).
  exists l. split; [exact Hl |]. apply Heq. reflexivity.
Defined.

(** ** The adapters on every input *)

(** X6.  On an array of rank three the observation adapter returns a tensor
    of shape (1, 3, 84, 84).  If the array has no cell the tensor is all
    zeros; otherwise cell i of the tensor, in row-major order, is cell
    [i mod size] of the array: the contents are cut when the array is
    larger than 3 * 84 * 84 cells and repeated when it is smaller. *)
Theorem preproc_obs_of_image (a : ndarray R) :
  rank a = 3%nat ->
  exists t,
    preproc_obs (NdArray a) = Ok t /\
    shape t = [1%nat; 3%nat; 84%nat; 84%nat] /\
    length (data t) = (84 * 84 * 3)%nat /\
    (data a = [] -> data t = repeat 0 (84 * 84 * 3)) /\
    (data a <> [] ->
     forall i, (i < 84 * 84 * 3)%nat ->
       nth i (data t) 0 = nth (i mod length (data a)) (data a) 0).
Proof.
  intros Hr. rewrite preproc_obs_ndarray. apply Nat.eqb_eq in Hr. rewrite Hr.
  eexists. split; [reflexivity |].
  cbn [unsqueeze0 shape data].
  split; [now rewrite np_resize_shape |].
  split; [now rewrite np_resize_length, canonical_size |].
  split.
  - intros He. unfold np_resize. cbn [np_reshape data]. rewrite He.
    cbn [length Nat.eqb orb data]. now rewrite canonical_size.
  - intros Hne i Hi. rewrite np_resize_nth.
    + reflexivity.
    + cbn [np_reshape data]. destruct (data a); [contradiction | simpl; lia].
    + now rewrite canonical_size.
Qed.

Lemma preproc_obs_of_image_witness :
  exists t,
    preproc_obs (NdArray gray_frame) = Ok t /\
    nth 6 (data t) 0 = 3.
Proof.
  destruct (preproc_obs_of_image gray_frame eq_refl)
    as (t & Ht & _ & _ & _ & Hcells).
  exists t. split; [exact Ht |].
  rewrite Hcells.
  - reflexivity.
  - discriminate.
  - apply Nat.ltb_lt. reflexivity.
Defined.

(** X7.  On every array the observation adapter returns, and the result has
    a leading dimension of size one.  An array whose rank is not three is
    passed on with its shape and contents as they are; a well-formed array
    gives a well-formed tensor. *)
Theorem preproc_obs_adds_batch_dimension (a : ndarray R) :
  exists t,
    preproc_obs (NdArray a) = Ok t /\
    hd 0%nat (shape t) = 1%nat /\
    (rank a <> 3%nat -> shape t = 1%nat :: shape a /\ data t = data a) /\
    (well_formed a -> well_formed t).
Proof.
  rewrite preproc_obs_ndarray. eexists. split; [reflexivity |].
  split; [reflexivity |]. split.
  - intros Hr. apply Nat.eqb_neq in Hr. rewrite Hr. split; reflexivity.
  - intros Hwf. unfold well_formed in *. cbn [unsqueeze0 shape data].
    assert (Hone : forall sh, numel (1%nat :: sh) = numel sh)
      by (intros sh; unfold numel; cbn [fold_right]; apply Nat.add_0_r).
    rewrite Hone.
    destruct (rank a =? 3)%nat.
    + now rewrite np_resize_length, np_resize_shape.
    + exact Hwf.
Qed.

(** X8.  An action whose squeezed shape has at most one dimension - a
    scalar, a vector, a batch of one vector - comes back with its entries
    untouched; a scalar becomes a vector of one entry. *)
Theorem process_action_keeps_flat_actions (t : tensor) :
  (length (shape (squeeze t)) <= 1)%nat ->
  process_action t
  = Ok (mk_array
          (match shape (squeeze t) with [] => [1%nat] | sh => sh end)
          (data t)).
Proof.
  intros Hr. unfold process_action.
  destruct (squeeze t) as [sh entries] eqn:E.
  assert (Hd : entries = data t)
    by (unfold squeeze in E; now injection E as _ <-).
  cbn [shape] in *. subst entries.
  destruct sh as [| d [| d' sh']]; [reflexivity | reflexivity |].
  cbn [length] in Hr. lia.
Qed.

Lemma process_action_keeps_flat_actions_witness :
  process_action (mk_array [1%nat; 3%nat] [0.5; -0.2; 1.5])
  = Ok (mk_array [3%nat] [0.5; -0.2; 1.5]).
Proof.
  apply (process_action_keeps_flat_actions (mk_array [1%nat; 3%nat] [0.5; -0.2; 1.5])).
  cbn. lia.
Defined.

Lemma nth_map_in_range (f : R -> R) (l : list R) (i : nat) :
  (i < length l)%nat -> nth i (map f l) 0 = f (nth i l 0).
Proof.
  intros Hi. rewrite (nth_indep _ 0 (f 0)) by now rewrite length_map.
  apply map_nth.
Qed.

(** X9.  A well-formed action of k rows and n columns, k and n at least 2,
    comes back with the same shape; the entries of its second row are
    clamped to [0, 1] and every other entry is as it was. *)
Theorem process_action_clamps_second_row (t : tensor) (k n : nat) :
  shape t = [k; n] -> (2 <= k)%nat -> (2 <= n)%nat -> well_formed t ->
  exists t',
    process_action t = Ok t' /\
    shape t' = [k; n] /\
    length (data t') = length (data t) /\
    forall i,
      ((n <= i < 2 * n)%nat ->
       nth i (data t') 0 = clamp (nth i (data t) 0) 0 1
       /\ 0 <= nth i (data t') 0 <= 1) /\
      ((i < n \/ 2 * n <= i)%nat -> nth i (data t') 0 = nth i (data t) 0).
Proof.
  destruct t as [sh entries]. cbn [shape data]. intros -> Hk Hn Hwf.
  unfold well_formed in Hwf. cbn [shape data numel fold_right] in Hwf.
  assert (Hlen : (2 * n <= length entries)%nat) by nia.
  unfold process_action, squeeze. cbn [shape data filter].
  assert (Ek : (k =? 1)%nat = false) by (apply Nat.eqb_neq; lia).
  assert (En : (n =? 1)%nat = false) by (apply Nat.eqb_neq; lia).
  rewrite Ek, En. cbn [negb rank shape length Nat.eqb Nat.ltb Nat.leb].
  unfold get_item. cbn [shape].
  assert (Ek1 : (1 <? k)%nat = true) by (apply Nat.ltb_lt; lia).
  rewrite Ek1. cbn [rbind].
  unfold set_item, row_size. cbn [shape tl numel fold_right data rank length
                                   Nat.ltb Nat.leb].
  rewrite !Nat.mul_1_r, Nat.mul_1_l.
  eexists. split; [reflexivity |]. cbn [shape data].
  split; [reflexivity |].
  assert (L1 : length (firstn n entries) = n)
    by (rewrite length_firstn; lia).
  assert (L2 : length (firstn n (skipn n entries)) = n)
    by (rewrite length_firstn, length_skipn; lia).
  split.
  { rewrite !length_app, length_map, L1, L2, length_skipn. lia. }
  intros i. split.
  - intros Hi.
    assert (Hv : nth i (firstn n entries
                        ++ map (fun x => clamp x 0 1) (firstn n (skipn n entries))
                        ++ skipn ((1 + 1) * n) entries) 0
                 = clamp (nth i entries 0) 0 1).
    { rewrite app_nth2 by lia. rewrite L1.
      rewrite app_nth1 by (rewrite length_map, L2; lia).
      rewrite nth_map_in_range by (rewrite L2; lia).
      rewrite nth_firstn by lia. rewrite nth_skipn.
      replace (n + (i - n))%nat with i by lia. reflexivity. }
    rewrite Hv. split; [reflexivity |]. apply clamp_range. lra.
  - intros [Hi | Hi].
    + rewrite app_nth1 by lia. apply nth_firstn. exact Hi.
    + rewrite app_nth2 by lia. rewrite L1.
      rewrite app_nth2 by (rewrite length_map, L2; lia).
      rewrite length_map, L2, nth_skipn. f_equal. lia.
Qed.

Lemma process_action_clamps_second_row_witness :
  exists t',
    process_action (mk_array [2%nat; 2%nat] [5; 5; -3; 7]) = Ok t' /\
    nth 2 (data t') 0 = clamp (-3) 0 1 /\ nth 0 (data t') 0 = 5.
Proof.
  destruct (process_action_clamps_second_row
              (mk_array [2%nat; 2%nat] [5; 5; -3; 7]) 2 2 eq_refl
              (le_n 2) (le_n 2) eq_refl) as (t' & Ht & _ & _ & Hcells).
  exists t'. split; [exact Ht |]. split.
  - apply (Hcells 2%nat). lia.
  - apply (Hcells 0%nat). left. lia.
Defined.

(** X10.  Indexing past the first dimension is an index error: an action of
    rank three or more whose first dimension has size 2 has no row 2, and
    an action of rank two or more whose first dimension is empty has no
    row 1. *)
Theorem process_action_index_errors (t : tensor) (rest : list nat) :
  Forall (fun d => d <> 1%nat) rest -> rest <> [] ->
  (shape t = 0%nat :: rest -> process_action t = Raise IndexError) /\
  (shape t = 2%nat :: rest -> (2 <= length rest)%nat ->
   process_action t = Raise IndexError).
Proof.
  intros Hrest Hne.
  assert (Hf : filter (fun d => negb (d =? 1)%nat) rest = rest).
  { clear Hne. induction Hrest as [| d ds Hd _ IH]; [reflexivity |].
    cbn [filter]. apply Nat.eqb_neq in Hd. rewrite Hd. cbn [negb]. now rewrite IH. }
  destruct t as [sh entries]. cbn [shape]. split.
  - intros ->. unfold process_action, squeeze. cbn [shape data filter Nat.eqb negb].
    rewrite Hf. destruct rest as [| d ds]; [contradiction |]. reflexivity.
  - intros -> Hlen. unfold process_action, squeeze.
    cbn [shape data filter Nat.eqb negb]. rewrite Hf.
    destruct rest as [| d [| d' ds]]; cbn [length] in Hlen; try lia.
    reflexivity.
Qed.

Lemma process_action_index_errors_witness :
  process_action (mk_array [2%nat; 2%nat; 2%nat] [1; 2; 3; 4; 5; 6; 7; 8])
  = Raise IndexError.
Proof.
  apply (process_action_index_errors
           (mk_array [2%nat; 2%nat; 2%nat] [1; 2; 3; 4; 5; 6; 7; 8])
           [2%nat; 2%nat]).
  - repeat constructor; discriminate.
  - discriminate.
  - reflexivity.
  - cbn. lia.
Defined.

(** ** The policy wrapper: what it builds and what it stores *)

Lemma clamp_cases (x lo hi : R) :
  lo <= hi ->
  (x <= lo -> clamp x lo hi = lo) /\
  (lo <= x <= hi -> clamp x lo hi = x) /\
  (hi <= x -> clamp x lo hi = hi).
Proof.
  intros H. unfold clamp, Rmin, Rmax.
  destruct (Rle_dec x lo); destruct (Rle_dec _ hi); repeat split; intros; lra.
Qed.

Lemma softplus_log_above (x : R) : Rmax x 0 < ln (1 + exp x).
Proof.
  unfold Rmax. destruct (Rle_dec x 0).
  - rewrite <- ln_1. apply ln_increasing; [lra |].
    pose proof (exp_pos x). lra.
  - rewrite <- (ln_exp x) at 1.
    apply ln_increasing; [apply exp_pos | lra].
Qed.

Lemma softplus_log_below (x : R) : ln (1 + exp x) <= Rmax x 0 + ln 2.
Proof.
  assert (H1 : 1 + exp x <= 2 * exp (Rmax x 0)).
  { unfold Rmax. destruct (Rle_dec x 0) as [Hx | Hx].
    - rewrite exp_0. destruct Hx as [Hx | ->]; [| rewrite exp_0; lra].
      pose proof (exp_increasing _ _ Hx) as Hi. rewrite exp_0 in Hi. lra.
    - assert (Hi : exp 0 < exp x) by (apply exp_increasing; lra).
      rewrite exp_0 in Hi. lra. }
  assert (H0 : 0 < 1 + exp x) by (pose proof (exp_pos x); lra).
  pose proof (exp_pos (Rmax x 0)) as He.
  assert (Hl : ln (1 + exp x) <= ln (2 * exp (Rmax x 0))).
  { destruct H1 as [H1 | H1]; [left; now apply ln_increasing | rewrite H1; lra]. }
  rewrite ln_mult, ln_exp in Hl by lra. lra.
Qed.

Lemma ln_2_positive : 0 < ln 2.
Proof. rewrite <- ln_1. apply ln_increasing; lra. Qed.

Lemma softplus_cases (x : R) :
  Rmax x 0 <= softplus x <= Rmax x 0 + ln 2 /\
  (x <= 20 -> Rmax x 0 < softplus x) /\
  (20 < x -> softplus x = x).
Proof.
  pose proof (softplus_log_above x) as Ha.
  pose proof (softplus_log_below x) as Hb.
  pose proof ln_2_positive as H2.
  unfold softplus. destruct (Rlt_dec 20 x) as [Hx | Hx].
  - assert (Hm : Rmax x 0 = x)
      by (unfold Rmax; destruct (Rle_dec x 0); lra).
    rewrite Hm. repeat split; try lra.
  - repeat split; try lra.
Qed.

Section PolicyDetails.
Context {C : Collaborators}.

(** X11.  With heads that fit the action space the query returns a Gaussian
    whose mean is the clamped mean head and whose covariance is diagonal:
    the entry (i, i) is the i-th spread - the spread itself, not its
    square - and every other entry is zero. *)
Theorem policy_builds_diagonal_gaussian (x : tensor) (st : State) :
  heads_match st x ->
  exists d st',
    policy x st = Ok (d, st') /\
    loc d = clamped_mean st x /\
    length (covariance_matrix d) = action_shape st /\
    forall i j, (i < action_shape st)%nat -> (j < action_shape st)%nat ->
      nth j (nth i (covariance_matrix d) []) 0
      = if (i =? j)%nat then nth i (spread st x) 0 else 0.
Proof.
  intros Hm. destruct (policy_succeeds x st Hm) as (d & Hp).
  destruct (policy_returns _ _ _ _ Hp) as (Hcov & _ & Hloc & _).
  exists d. eexists. split; [exact Hp |]. split; [exact Hloc |].
  destruct Hm as [_ Hsg].
  assert (Hlen : length (spread st x) = action_shape st)
    by (unfold spread; now rewrite length_map).
  set (n := action_shape st) in *. set (sg := spread st x) in *.
  unfold eye_times in Hcov. rewrite Hlen, Nat.eqb_refl in Hcov.
  assert (Hgen : covariance_matrix d = map (fun row => zip_mul row sg) (eye n) ->
            length (covariance_matrix d) = n /\
            forall i j, (i < n)%nat -> (j < n)%nat ->
              nth j (nth i (covariance_matrix d) []) 0
              = if (i =? j)%nat then nth i sg 0 else 0).
  { intros ->. split; [now rewrite length_map, eye_length |].
    intros i j Hi Hj. unfold eye. rewrite map_map.
    rewrite (nth_map_seq _ n i []) by exact Hi.
    rewrite zip_mul_nth, (nth_map_seq _ n j 0) by exact Hj.
    destruct (i =? j)%nat eqn:E; [apply Nat.eqb_eq in E; subst j |]; lra. }
  destruct sg as [| s0 [| s1 sg']] eqn:Esg.
  - injection Hcov as Hcov. symmetry in Hcov. now apply Hgen.
  - injection Hcov as Hcov. symmetry in Hcov.
    cbn [length] in Hlen. rewrite <- Hlen in *. rewrite Hcov.
    split; [reflexivity |].
    intros i j Hi Hj. assert (i = 0%nat) by lia. assert (j = 0%nat) by lia.
    subst i j. cbn. lra.
  - injection Hcov as Hcov. symmetry in Hcov. now apply Hgen.
Qed.

(** X12.  A query that returns has stored its mean, its spread, the value
    of the network at the observation and the distribution on the agent,
    and has changed nothing else: the buffers, the log, the counters, the
    parameters, the environment and the random generator are as before. *)
Theorem policy_side_effects (x : tensor) (st st' : State) (d : distribution) :
  policy x st = Ok (d, st') ->
  (mu st' = Some (loc d) /\ sigma st' = Some (spread st x) /\
   value st' = Some (V st x) /\ action_distribution st' = Some d) /\
  (trajectory st' = trajectory st /\ rewards st' = rewards st /\
   writer st' = writer st /\ global_step_num st' = global_step_num st /\
   module_global_step_num st' = module_global_step_num st /\
   actor_critic st' = actor_critic st /\ gamma st' = gamma st /\
   action_shape st' = action_shape st /\ env st' = env st /\ rng st' = rng st).
Proof.
  intros Hp. destruct (policy_returns _ _ _ _ Hp) as (_ & _ & Hloc & ->).
  rewrite Hloc. repeat split.
Qed.

(** X13.  The mean of the returned distribution, entry by entry: a raw mean
    of at most -1 becomes -1, a raw mean of at least 1 becomes 1, and a raw
    mean within [-1, 1] is kept, so a mean head that is already in range is
    returned unchanged. *)
Theorem policy_mean_saturates (x : tensor) (st st' : State) (d : distribution) :
  policy x st = Ok (d, st') ->
  let raw := fst (fst (forward (actor_critic st) x)) in
  Forall2 (fun r m => (r <= -1 -> m = -1) /\ (-1 <= r <= 1 -> m = r)
                      /\ (1 <= r -> m = 1))
    raw (loc d) /\
  (Forall (fun r => -1 <= r <= 1) raw -> loc d = raw).
Proof.
  intros Hp raw. destruct (policy_returns _ _ _ _ Hp) as (_ & _ & -> & _).
  unfold clamped_mean. fold raw. clearbody raw. split.
  - induction raw as [| r raw IH]; cbn [map]; constructor; [| exact IH].
    apply clamp_cases. lra.
  - intros Hall. induction Hall as [| r raw Hr _ IH]; [reflexivity |].
    cbn [map]. rewrite IH. f_equal.
    now apply (clamp_cases r (-1) 1 ltac:(lra)).
Qed.

(** X14.  The spread follows the positive part of the raw spread head: each
    entry lies between max(raw, 0) + 1e-7 and max(raw, 0) + ln 2 + 1e-7.
    Up to the threshold 20 of the softplus layer it is strictly above
    max(raw, 0) + 1e-7; above the threshold it is raw + 1e-7 exactly. *)
Theorem spread_tracks_positive_part (x : tensor) (st : State) :
  Forall2 (fun r sg =>
             Rmax r 0 + 1e-7 <= sg <= Rmax r 0 + ln 2 + 1e-7 /\
             (r <= 20 -> Rmax r 0 + 1e-7 < sg) /\
             (20 < r -> sg = r + 1e-7))
    (snd (fst (forward (actor_critic st) x))) (spread st x).
Proof.
  unfold spread.
  induction (snd (fst (forward (actor_critic st) x))) as [| r raw IH];
    cbn [map]; constructor; [| exact IH].
  destruct (softplus_cases r) as (Hb & Hs & He).
  split; [lra |]. split.
  - intros Hr. specialize (Hs Hr). lra.
  - intros Hr. rewrite (He Hr). reflexivity.
Qed.

End PolicyDetails.

Lemma demo_policy_query :
  exists d st',
    policy (C := demo_world) (mk_array [1%nat; 1%nat] [0.5]) (demo_state 0.99)
    = Ok (d, st').
Proof.
  destruct (policy_succeeds (C := demo_world) (mk_array [1%nat; 1%nat] [0.5])
              (demo_state 0.99) (demo_heads_match _)) as (d & Hd).
  eexists. eexists. exact Hd.
Qed.

Lemma policy_builds_diagonal_gaussian_witness :
  exists d st',
    policy (C := demo_world) (mk_array [1%nat; 1%nat] [0.5]) (demo_state 0.99)
    = Ok (d, st') /\
    nth 1 (nth 0 (covariance_matrix d) []) 0 = 0.
Proof.
  destruct (policy_builds_diagonal_gaussian (C := demo_world)
              (mk_array [1%nat; 1%nat] [0.5]) (demo_state 0.99)
              (demo_heads_match _)) as (d & st' & Hp & _ & _ & Hcells).
  exists d, st'. split; [exact Hp |].
  apply (Hcells 0%nat 1%nat); cbn; lia.
Defined.

Lemma policy_side_effects_witness :
  exists d st',
    policy (C := demo_world) (mk_array [1%nat; 1%nat] [0.5]) (demo_state 0.99)
    = Ok (d, st') /\
    value st' = Some 0.5 /\ trajectory st' = [].
Proof.
  destruct demo_policy_query as (d & st' & Hp).
  exists d, st'. split; [exact Hp |].
  destruct (policy_side_effects _ _ _ _ Hp) as ((_ & _ & Hv & _) & (Ht & _)).
  split; [exact Hv | exact Ht].
Defined.

Lemma policy_mean_saturates_witness :
  exists d st',
    policy (C := demo_world) (mk_array [1%nat; 1%nat] [0.5]) (demo_state 0.99)
    = Ok (d, st') /\
    Forall2 (fun r m => (r <= -1 -> m = -1) /\ (-1 <= r <= 1 -> m = r)
                        /\ (1 <= r -> m = 1))
      [2; 0; -3] (loc d).
Proof.
  destruct demo_policy_query as (d & st' & Hp).
  exists d, st'. split; [exact Hp |].
  exact (proj1 (policy_mean_saturates _ _ _ _ Hp)).
Defined.

(** ** The methods of the agent: what they return, store and log *)

Section MethodEffects.
Context {C : Collaborators}.

Lemma get_action_run (o : ndarray R) (st : State) (x : tensor) :
  preproc_obs (NdArray o) = Ok x -> heads_match st x -> sampler_fits ->
  exists d raw g' act st',
    (exists st0, policy x st = Ok (d, st0)) /\
    sample (rng st) d = (raw, g') /\
    get_action o st = Ok (act, st') /\
    shape act = [length (loc d)] /\ data act = data raw /\
    trajectory st'
    = trajectory st ++ [mk_transition x (V st x) act (log_prob d raw)] /\
    rng st' = g' /\ value st' = Some (V st x) /\
    rewards st' = rewards st /\ writer st' = writer st /\
    global_step_num st' = global_step_num st /\
    module_global_step_num st' = module_global_step_num st /\
    actor_critic st' = actor_critic st /\ action_shape st' = action_shape st /\
    gamma st' = gamma st.
Proof.
  intros Hx Hm Hsam.
  destruct (policy_succeeds x st Hm) as (d & Hp).
  destruct (policy_returns _ _ _ _ Hp) as (_ & _ & Hloc & _).
  pose proof (Hsam (rng st) d) as Hshape.
  destruct (sample (rng st) d) as [raw g'] eqn:Es. cbn [fst] in Hshape.
  exists d, raw, g'. eexists. eexists.
  split; [eexists; exact Hp |]. split; [exact Es |]. split.
  { unfold get_action, bind, lift. rewrite Hx. cbn [rbind]. rewrite Hp.
    unfold getattr, gets, modify, ret.
    cbn [value rng set_action_distribution set_policy_outputs].
    rewrite Es. rewrite (process_action_vector _ _ Hshape). cbn [rbind].
    reflexivity. }
  cbn. repeat split.
Qed.

(** X15.  With heads that fit and a sampler that returns event-shaped
    vectors get_action returns the sampled vector itself, advances the
    random generator, and appends exactly one transition: the preprocessed
    observation, the value of the network there, the returned action, and
    the log-probability of the sample.  The rewards and the log are not
    touched. *)
Theorem get_action_records_transition (o : ndarray R) (st : State) (x : tensor) :
  preproc_obs (NdArray o) = Ok x -> heads_match st x -> sampler_fits ->
  exists d raw g' act st',
    (exists st0, policy x st = Ok (d, st0)) /\
    sample (rng st) d = (raw, g') /\
    get_action o st = Ok (act, st') /\
    shape act = [length (loc d)] /\ data act = data raw /\
    trajectory st'
    = trajectory st ++ [mk_transition x (V st x) act (log_prob d raw)] /\
    rng st' = g' /\ value st' = Some (V st x) /\
    rewards st' = rewards st /\ writer st' = writer st /\
    global_step_num st' = global_step_num st /\
    module_global_step_num st' = module_global_step_num st /\
    actor_critic st' = actor_critic st /\ action_shape st' = action_shape st /\
    gamma st' = gamma st.
Proof. exact (get_action_run o st x). Qed.

(** X16.  learn on an empty trajectory is a type error.  On a trajectory
    with as many transitions as there are rewards it returns: the targets
    are the returns over the whole reward buffer, the loss is logged once
    under "agent/loss" at the current global step, the optimizer is stepped
    once with that loss, and the buffers, the step counter and the stored
    value are left as they were. *)
Theorem learn_outcome (n_th_observation : ndarray R) (done : bool) (st : State) :
  (trajectory st = [] -> learn n_th_observation done st = Raise TypeError) /\
  (trajectory st <> [] -> length (trajectory st) = length (rewards st) ->
   exists td_targets l st',
     calculate_n_step_return st (rewards st) n_th_observation done (gamma st)
     = Ok td_targets /\
     calculate_loss (trajectory st) td_targets = Ok l /\
     learn n_th_observation done st = Ok (tt, st') /\
     writer st' = writer st ++ [add_scalar "agent/loss" l (global_step_num st)] /\
     actor_critic st' = optimizer_step (actor_critic st) l /\
     trajectory st' = trajectory st /\ rewards st' = rewards st /\
     global_step_num st' = global_step_num st /\ value st' = value st).
Proof.
  destruct (calculate_n_step_return_refines st (rewards st) n_th_observation
              done (gamma st)) as (x & _ & Hcall).
  split.
  - intros He. unfold learn, bind, gets, lift. rewrite Hcall. cbn [rbind].
    rewrite He. reflexivity.
  - intros Hne Hlen.
    destruct (learn_succeeds n_th_observation done st Hne Hlen) as (st' & Hl).
    destruct (learn_effect _ _ _ _ _ Hl) as (td & l & Htd & _ & Hloss & ->).
    exists td, l. eexists. split; [exact Htd |]. split; [exact Hloss |].
    split; [exact Hl |]. repeat split.
Qed.

Lemma learn_td_ac_succeeds
  (s_t : ndarray R) (a_t : tensor) (r : R) (s_tp1 : ndarray R) (done : bool)
  (st : State) (x_t x_tp1 : tensor) :
  preproc_obs (NdArray s_t) = Ok x_t ->
  preproc_obs (NdArray s_tp1) = Ok x_tp1 ->
  heads_match st x_t -> heads_match st x_tp1 ->
  exists u st', learn_td_ac s_t a_t r s_tp1 done st = Ok (u, st').
Proof.
  intros Hx_t Hx_tp1 Hm_t Hm_tp1.
  destruct (policy_succeeds x_t st Hm_t) as (d & Hd).
  set (st1 := set_action_distribution
                (set_policy_outputs st (clamped_mean st x_t) (spread st x_t)
                   (V st x_t)) d) in *.
  assert (Hm1 : heads_match st1 x_tp1) by exact Hm_tp1.
  destruct (policy_succeeds x_tp1 st1 Hm1) as (d1 & Hd1).
  eexists. eexists.
  unfold learn_td_ac, bind, lift.
  rewrite Hx_t. cbn [rbind]. rewrite Hd.
  unfold getattr at 1. cbn [value st1 set_action_distribution set_policy_outputs].
  rewrite Hx_tp1. cbn [rbind]. fold st1. rewrite Hd1.
  reflexivity.
Qed.

(** X17.  What a returning learn_td_ac leaves behind: the stored value is
    the value of the next observation under the parameters from before the
    update, the optimizer is stepped once with the loss, and the loss is
    logged once under "main/loss" at the module-level step.  The buffers of
    the agent are not touched, and the terminal flag changes nothing: the
    target bootstraps from the next observation even when the episode has
    ended. *)
Theorem learn_td_ac_side_effects
  (s_t : ndarray R) (a_t : tensor) (r : R) (s_tp1 : ndarray R) (done : bool)
  (st st' : State) (u : td_update) :
  learn_td_ac s_t a_t r s_tp1 done st = Ok (u, st') ->
  (exists x_tp1,
     preproc_obs (NdArray s_tp1) = Ok x_tp1 /\
     value st' = Some (V st x_tp1) /\ v_stp1 u = V st x_tp1) /\
  actor_critic st' = optimizer_step (actor_critic st) (loss u) /\
  writer st'
  = writer st ++ [add_scalar "main/loss" (loss u) (module_global_step_num st)] /\
  trajectory st' = trajectory st /\ rewards st' = rewards st /\
  global_step_num st' = global_step_num st /\
  learn_td_ac s_t a_t r s_tp1 (negb done) st = Ok (u, st').
Proof.
  intros H.
  assert (Hflag : learn_td_ac s_t a_t r s_tp1 (negb done) st = Ok (u, st'))
    by exact H.
  unfold learn_td_ac in H. run_method H.
  injection H as <- <-.
  repeat match goal with
         | Hp : policy _ _ = Ok _ |- _ =>
             let E := fresh "E" in
             destruct (policy_returns _ _ _ _ Hp) as (_ & _ & _ & E);
             clear Hp; subst
         end.
  repeat match goal with
         | Hv : value _ = Some _ |- _ => cbn in Hv; injection Hv as <-
         end.
  split.
  { eexists. split; [reflexivity |]. split; reflexivity. }
  cbn. repeat split. exact Hflag.
Qed.

End MethodEffects.

Lemma get_action_records_transition_witness :
  exists act st',
    get_action (C := demo_world) (demo_observation 0.5) (demo_state 0.99)
    = Ok (act, st') /\
    length (trajectory st') = 1%nat /\ rewards st' = [].
Proof.
  destruct (get_action_records_transition (C := demo_world)
              (demo_observation 0.5) (demo_state 0.99) _
              (preproc_demo_observation 0.5) (demo_heads_match _)
              demo_sampler_fits)
    as (d & raw & g' & act & st' & _ & _ & Hact & _ & _ & Htr & _ & _ & Hrw & _).
  exists act, st'. split; [exact Hact |]. split.
  - rewrite Htr. reflexivity.
  - exact Hrw.
Defined.

Lemma learn_td_ac_side_effects_witness :
  exists u st',
    learn_td_ac (C := demo_world) (demo_observation 0.5) raw_action 1
      (demo_observation 0.6) true (demo_state 0.99) = Ok (u, st') /\
    value st' = Some 0.6 /\ trajectory st' = [].
Proof.
  destruct (learn_td_ac_succeeds (C := demo_world) (demo_observation 0.5)
              raw_action 1 (demo_observation 0.6) true (demo_state 0.99)
              _ _ (preproc_demo_observation 0.5) (preproc_demo_observation 0.6)
              (demo_heads_match _) (demo_heads_match _))
    as (u & st' & Hrun).
  exists u, st'. split; [exact Hrun |].
  destruct (learn_td_ac_side_effects _ _ _ _ _ _ _ _ Hrun)
    as ((x & Hx & Hv & _) & _ & _ & Ht & _).
  rewrite preproc_demo_observation in Hx. injection Hx as <-.
  split; [exact Hv | exact Ht].
Defined.

(** ** The training loop: accounting and termination *)

Section LoopAccounting.
Context {C : Collaborators}.

Lemma run_step_account (thresh : Z) (v v' : episode_vars) (st st' : State) :
  run_step thresh v st = Ok (v', st') ->
  exists reward events,
    step_num v' = S (step_num v) /\
    ep_reward v' = ep_reward v + reward /\
    rewards st' = rewards st ++ [reward] /\
    length (trajectory st') = S (length (trajectory st)) /\
    global_step_num st' = S (global_step_num st) /\
    action_shape st' = action_shape st /\
    writer st' = writer st ++ events /\
    logged_rewards events = [(reward, S (global_step_num st))] /\
    episodes_logged events = 0%nat.
Proof.
  intros H.
  destruct (run_step_effect _ _ _ _ _ H)
    as (act & st1 & reward & losses & Hact & _ & Hk & Hep & Hrw & Htr & Hg & Ha
        & Hw & Hfire).
  destruct (get_action_effect _ _ _ _ Hact) as ((tr & Htr1) & _).
  exists reward. eexists. split; [exact Hk |]. split; [exact Hep |].
  split; [exact Hrw |].
  split; [rewrite Htr, Htr1, length_app; cbn [length]; lia |].
  split; [exact Hg |]. split; [exact Ha |]. split; [exact Hw |].
  destruct (trigger thresh (S (step_num v)) (done v')).
  - destruct Hfire as (td & l & -> & _). split; reflexivity.
  - destruct Hfire as [-> _]. split; reflexivity.
Qed.

Lemma logged_rewards_app (w1 w2 : list scalar_event) :
  logged_rewards (w1 ++ w2) = logged_rewards w1 ++ logged_rewards w2.
Proof. unfold logged_rewards. now rewrite filter_app, map_app. Qed.

Lemma episodes_logged_app (w1 w2 : list scalar_event) :
  episodes_logged (w1 ++ w2) = (episodes_logged w1 + episodes_logged w2)%nat.
Proof. unfold episodes_logged. now rewrite filter_app, length_app. Qed.

Lemma while_not_done_account (passes : nat) (thresh : Z)
  (v v' : episode_vars) (st st' : State) :
  while_not_done passes thresh v st = Ok (v', st') ->
  exists new_rewards events,
    step_num v' = (step_num v + length new_rewards)%nat /\
    ep_reward v' = ep_reward v + fold_right Rplus 0 new_rewards /\
    rewards st' = rewards st ++ new_rewards /\
    length (trajectory st') = (length (trajectory st) + length new_rewards)%nat /\
    global_step_num st' = (global_step_num st + length new_rewards)%nat /\
    action_shape st' = action_shape st /\
    writer st' = writer st ++ events /\
    logged_rewards events
    = combine new_rewards (seq (S (global_step_num st)) (length new_rewards)) /\
    episodes_logged events = 0%nat.
Proof.
  revert v st. induction passes as [| passes IH]; intros v st H.
  - cbn [while_not_done] in H.
    assert (E : v' = v /\ st' = st)
      by (destruct (done v); injection H as <- <-; now split).
    destruct E as [-> ->]. exists [], []. cbn [length fold_right].
    rewrite !app_nil_r, !Nat.add_0_r, Rplus_0_r. repeat split.
  - cbn [while_not_done] in H. destruct (done v) eqn:Hdone.
    { injection H as <- <-. exists [], []. cbn [length fold_right].
      rewrite !app_nil_r, !Nat.add_0_r, Rplus_0_r. repeat split. }
    unfold bind in H.
    destruct (run_step thresh v st) as [[v1 st1] |] eqn:E; [| discriminate].
    destruct (run_step_account _ _ _ _ _ E)
      as (reward & ev1 & Hk & Hep & Hrw & Htr & Hg & Ha & Hw & Hlog & Hepi).
    destruct (IH _ _ H)
      as (rs & ev2 & Hk2 & Hep2 & Hrw2 & Htr2 & Hg2 & Ha2 & Hw2 & Hlog2 & Hepi2).
    exists (reward :: rs), (ev1 ++ ev2). cbn [length fold_right].
    split; [lia |]. split; [rewrite Hep2, Hep; lra |].
    split; [rewrite Hrw2, Hrw, <- app_assoc; reflexivity |].
    split; [lia |]. split; [lia |]. split; [congruence |].
    split; [rewrite Hw2, Hw, <- app_assoc; reflexivity |].
    split.
    + rewrite logged_rewards_app, Hlog, Hlog2, Hg. reflexivity.
    + rewrite episodes_logged_app, Hepi, Hepi2. reflexivity.
Qed.

(** X18.  Accounting of an episode loop that returns, over the passes it
    made: each pass appended one reward and one transition and advanced the
    global step counter by one; the episode reward grew by the sum of those
    rewards; and the log gained, under "agent/reward", exactly those rewards
    in order, stamped with the consecutive global step numbers that follow
    the one the loop started from. *)
Theorem while_not_done_accounting (passes : nat) (n_step_learning_step_thresh : Z)
  (v v' : episode_vars) (st st' : State) :
  while_not_done passes n_step_learning_step_thresh v st = Ok (v', st') ->
  exists new_rewards events,
    length new_rewards = (step_num v' - step_num v)%nat /\
    (length new_rewards <= passes)%nat /\
    ep_reward v' = ep_reward v + fold_right Rplus 0 new_rewards /\
    rewards st' = rewards st ++ new_rewards /\
    length (trajectory st') = (length (trajectory st) + length new_rewards)%nat /\
    global_step_num st' = (global_step_num st + length new_rewards)%nat /\
    writer st' = writer st ++ events /\
    logged_rewards events
    = combine new_rewards (seq (S (global_step_num st)) (length new_rewards)).
Proof.
  intros H.
  destruct (while_not_done_account _ _ _ _ _ _ H)
    as (rs & ev & Hk & Hep & Hrw & Htr & Hg & _ & Hw & Hlog & _).
  exists rs, ev. split; [lia |]. split.
  { clear - H Hk. revert v st rs H Hk.
    induction passes as [| passes IH]; intros v st rs H Hk.
    - cbn [while_not_done] in H.
      assert (v' = v) by (destruct (done v); now injection H as <- _).
      subst v'. lia.
    - cbn [while_not_done] in H. destruct (done v).
      + injection H as <- _. lia.
      + unfold bind in H.
        destruct (run_step n_step_learning_step_thresh v st)
          as [[v1 st1] |] eqn:E; [| discriminate].
        destruct (run_step_account _ _ _ _ _ E) as (r1 & e1 & Hk1 & _).
        destruct (while_not_done_account _ _ _ _ _ _ H) as (rs1 & _ & Hk2 & _).
        specialize (IH v1 st1 rs1 H Hk2). lia. }
  repeat (split; [assumption |]). exact Hlog.
Qed.

Lemma while_not_done_succeeds (passes : nat) (n_step_learning_step_thresh : Z)
  (v : episode_vars) (st : State) :
  network_fits (action_shape st) -> sampler_fits ->
  length (trajectory st) = length (rewards st) ->
  exists v' st',
    while_not_done passes n_step_learning_step_thresh v st = Ok (v', st') /\
    length (trajectory st') = length (rewards st') /\
    (done v' = true \/ step_num v' = (step_num v + passes)%nat).
Proof.
  intros Hnet Hsam. revert v st Hnet.
  induction passes as [| passes IH]; intros v st Hnet Hbal.
  - exists v, st. cbn [while_not_done].
    split; [destruct (done v); reflexivity |]. split; [exact Hbal |]. right. lia.
  - cbn [while_not_done]. destruct (done v) eqn:Hd.
    + exists v, st. split; [reflexivity |]. split; [exact Hbal |]. now left.
    + destruct (run_step_succeeds n_step_learning_step_thresh v st Hnet Hsam Hbal)
        as (v1 & st1 & Hrun & Hbal1).
      destruct (run_step_account _ _ _ _ _ Hrun) as (_ & _ & Hk & _ & _ & _ & _ & Ha & _).
      rewrite <- Ha in Hnet.
      destruct (IH v1 st1 Hnet Hbal1) as (v' & st' & Hloop & Hbal' & Hend).
      exists v', st'. unfold bind. rewrite Hrun.
      split; [exact Hloop |]. split; [exact Hbal' |].
      destruct Hend as [Hend | Hend]; [now left | right; lia].
Qed.


(** X20.  Accounting of [run]: the log gains one "agent/ep_reward" event
    for every episode that ended - max_episodes of them when run reports
    that all episodes ended, fewer otherwise - and across the episodes the
    buffers and the global step counter only grow: the rewards are extended
    by one entry per pass, and the trajectory and the counter by as many. *)
Theorem run_accounting (passes max_episodes : nat) (n_step_learning_step_thresh : Z)
  (st st' : State) (finished : bool) :
  run passes max_episodes n_step_learning_step_thresh st = Ok (finished, st') ->
  exists new_rewards events,
    writer st' = writer st ++ events /\
    (if finished then episodes_logged events = max_episodes
     else (episodes_logged events < max_episodes)%nat) /\
    rewards st' = rewards st ++ new_rewards /\
    length (trajectory st') = (length (trajectory st) + length new_rewards)%nat /\
    global_step_num st' = (global_step_num st + length new_rewards)%nat.
Proof.
  revert st. induction max_episodes as [| remaining IH]; intros st H.
  - cbn [run] in H. injection H as <- <-. exists [], [].
    cbn [length]. rewrite !app_nil_r, !Nat.add_0_r. repeat split.
  - cbn [run] in H. unfold bind at 1, gets at 1 in H.
    destruct (env_reset (env st)) as [e' o0].
    unfold bind at 1, modify at 1 in H. unfold bind at 1 in H.
    destruct (while_not_done passes n_step_learning_step_thresh
                (mk_episode_vars o0 false 0 0) (set_env st e'))
      as [[v1 st1] |] eqn:Eloop; [| discriminate].
    destruct (while_not_done_account _ _ _ _ _ _ Eloop)
      as (rs & ev & _ & _ & Hrw & Htr & Hg & _ & Hw & _ & Hepi).
    cbn in Hrw, Htr, Hg, Hw.
    destruct (done v1).
    + unfold bind at 1, gets at 1 in H. unfold bind at 1, writer_add_scalar, modify in H.
      apply IH in H. destruct H as (rs2 & ev2 & Hw2 & Hfin & Hrw2 & Htr2 & Hg2).
      cbn in Hw2, Hrw2, Htr2, Hg2.
      exists (rs ++ rs2).
      exists (ev ++ [add_scalar "agent/ep_reward" (ep_reward v1) (global_step_num st1)]
                ++ ev2).
      split; [rewrite Hw2, Hw, <- !app_assoc; reflexivity |].
      split.
      { rewrite !episodes_logged_app, Hepi. cbn.
        destruct finished; lia. }
      split; [rewrite Hrw2, Hrw, <- app_assoc; reflexivity |].
      rewrite length_app. split; lia.
    + injection H as <- <-. exists rs, ev.
      split; [exact Hw |]. split; [rewrite Hepi; lia |].
      split; [exact Hrw |]. split; assumption.
Qed.

Lemma run_succeeds (passes max_episodes : nat) (n_step_learning_step_thresh : Z)
  (st : State) :
  network_fits (action_shape st) -> sampler_fits ->
  length (trajectory st) = length (rewards st) ->
  exists finished st',
    run passes max_episodes n_step_learning_step_thresh st = Ok (finished, st') /\
    length (trajectory st') = length (rewards st').
Proof.
  intros Hnet Hsam. revert st Hnet.
  induction max_episodes as [| remaining IH]; intros st Hnet Hbal.
  - exists true, st. split; [reflexivity | exact Hbal].
  - cbn [run]. unfold bind at 1, gets at 1.
    destruct (env_reset (env st)) as [e' o0].
    unfold bind at 1, modify at 1. unfold bind at 1.
    destruct (while_not_done_succeeds passes n_step_learning_step_thresh
                (mk_episode_vars o0 false 0 0) (set_env st e') Hnet Hsam Hbal)
      as (v1 & st1 & Hloop & Hbal1 & _).
    rewrite Hloop.
    destruct (while_not_done_account _ _ _ _ _ _ Hloop)
      as (_ & _ & _ & _ & _ & _ & _ & Ha & _).
    cbn in Ha.
    destruct (done v1).
    + unfold bind at 1, gets at 1. unfold bind at 1, writer_add_scalar, modify.
      apply IH.
      * cbn. rewrite Ha. exact Hnet.
      * exact Hbal1.
    + exists false, st1. split; [reflexivity | exact Hbal1].
Qed.


End LoopAccounting.

Lemma while_not_done_accounting_witness :
  exists v' st' new_rewards,
    while_not_done (C := demo_world) 3 5 demo_start (demo_state 0.99) = Ok (v', st') /\
    rewards st' = new_rewards /\ length new_rewards = 3%nat /\
    global_step_num st' = 3%nat.
Proof.
  destruct (demo_episode 5)
    as (v1 & st1 & v2 & st2 & v3 & st3
        & _ & _ & _ & _ & Hk3 & _ & _ & _ & _ & _ & Hrun).
  destruct (while_not_done_accounting _ _ _ _ _ _ Hrun)
    as (rs & ev & Hlen & _ & _ & Hrw & _ & Hg & _).
  rewrite Hk3 in Hlen. cbn in Hlen, Hrw, Hg.
  exists v3, st3, rs. split; [exact Hrun |]. split; [exact Hrw |].
  split; [exact Hlen |]. rewrite Hg, Hlen. reflexivity.
Defined.



Lemma run_accounting_witness :
  exists finished st' events,
    run (C := demo_world) 7 2 2 (demo_state 0.99) = Ok (finished, st') /\
    writer st' = events /\
    (if finished then episodes_logged events = 2%nat
     else (episodes_logged events < 2)%nat).
Proof.
  destruct (run_succeeds (C := demo_world) 7 2 2 (demo_state 0.99)
              demo_network_fits demo_sampler_fits eq_refl)
    as (finished & st' & Hrun & _).
  destruct (run_accounting _ _ _ _ _ _ Hrun) as (rs & ev & Hw & Hfin & _).
  exists finished, st', ev. split; [exact Hrun |]. split; [exact Hw | exact Hfin].
Defined.

(** ** The networks: shapes in, shapes out *)

Lemma numel_app_last (lead : list nat) (n : nat) :
  numel (lead ++ [n]) = (numel lead * n)%nat.
Proof.
  unfold numel. induction lead as [| d lead IH]; cbn [app fold_right].
  - lia.
  - rewrite IH. lia.
Qed.

Lemma numel_rev (s : list nat) : numel (rev s) = numel s.
Proof.
  induction s as [| d s IH]; [reflexivity |].
  cbn [rev]. rewrite numel_app_last, IH. unfold numel. cbn [fold_right]. lia.
Qed.

Lemma flat_map_length_const {A B : Type} (f : A -> list B) (l : list A) (m : nat) :
  (forall x, In x l -> length (f x) = m) ->
  length (flat_map f l) = (length l * m)%nat.
Proof.
  induction l as [| x l IH]; intros H; [reflexivity |].
  cbn [flat_map length]. rewrite length_app.
  rewrite (H x (or_introl eq_refl)).
  rewrite IH by (intros z Hz; apply H; now right). lia.
Qed.

Lemma linear_row_length (l : Linear) (n_in n_out : nat) (x : list R) :
  linear_built l n_in n_out -> length (linear_row l x) = n_out.
Proof.
  intros (_ & _ & Hw & Hb & _). unfold linear_row.
  rewrite length_map, length_combine, Hw, Hb. apply Nat.min_id.
Qed.

Lemma relu_shape (t : tensor) : shape (relu t) = shape t.
Proof. reflexivity. Qed.

Lemma relu_well_formed (t : tensor) : well_formed t -> well_formed (relu t).
Proof. unfold well_formed, relu. cbn [shape data]. now rewrite length_map. Qed.

Lemma apply_linear_fits (l : Linear) (n_in n_out : nat) (x : tensor)
  (lead : list nat) :
  linear_built l n_in n_out -> shape x = lead ++ [n_in] ->
  exists t, apply_linear l x = Ok t /\ shape t = lead ++ [n_out] /\ well_formed t.
Proof.
  intros Hb Hs. pose proof Hb as (Hin & Hout & _).
  unfold apply_linear. rewrite Hs, rev_app_distr. cbn [rev app].
  rewrite Hin, Nat.eqb_refl, Hout, rev_involutive.
  eexists. split; [reflexivity |]. split; [reflexivity |].
  unfold well_formed. cbn [shape data].
  rewrite numel_app_last.
  rewrite (flat_map_length_const _ _ n_out).
  - rewrite length_seq. f_equal. apply numel_rev.
  - intros i _. now apply linear_row_length with (n_in := n_in).
Qed.

Lemma apply_linear_mismatch (l : Linear) (n_in n_out n : nat) (x : tensor)
  (lead : list nat) :
  linear_built l n_in n_out -> shape x = lead ++ [n] -> n <> n_in ->
  apply_linear l x = Raise RuntimeError.
Proof.
  intros (Hin & _) Hs Hn. unfold apply_linear.
  rewrite Hs, rev_app_distr. cbn [rev app]. rewrite Hin.
  apply Nat.eqb_neq in Hn. now rewrite Hn.
Qed.

Lemma apply_conv_fits (c : Conv2d) (n_in n_out k : nat) (x : tensor)
  (b h w : nat) :
  conv_built c n_in n_out k -> shape x = [b; n_in; h; w] ->
  (k <= h)%nat -> (k <= w)%nat ->
  exists t,
    apply_conv c x = Ok t /\
    shape t = [b; n_out; (h - k + 1)%nat; (w - k + 1)%nat] /\ well_formed t.
Proof.
  intros (Hin & Hout & Hk & _) Hs Hh Hw.
  unfold apply_conv. rewrite Hs, Hin, Hout, Hk, Nat.eqb_refl.
  apply Nat.leb_le in Hh, Hw. rewrite Hh, Hw. cbn [andb].
  eexists. split; [reflexivity |]. split; [reflexivity |].
  unfold well_formed. cbn [shape data numel fold_right].
  rewrite (flat_map_length_const _ _ (n_out * ((h - k + 1) * (w - k + 1)))).
  - rewrite length_seq. lia.
  - intros bi _.
    rewrite (flat_map_length_const _ _ ((h - k + 1) * (w - k + 1))).
    + now rewrite length_seq.
    + intros o _. rewrite (flat_map_length_const _ _ (w - k + 1)).
      * now rewrite length_seq.
      * intros i _. now rewrite length_map, length_seq.
Qed.

Lemma apply_conv_channels (c : Conv2d) (n_in n_out k : nat) (x : tensor)
  (b ch h w : nat) :
  conv_built c n_in n_out k -> shape x = [b; ch; h; w] -> ch <> n_in ->
  apply_conv c x = Raise RuntimeError.
Proof.
  intros (Hin & _) Hs Hc. unfold apply_conv. rewrite Hs, Hin.
  apply Nat.eqb_neq in Hc. now rewrite Hc.
Qed.

Lemma well_formed_row_length (t : tensor) (n : nat) :
  shape t = [1%nat; n] -> well_formed t -> length (data t) = n.
Proof.
  intros Hs Hwf. unfold well_formed in Hwf. rewrite Hwf, Hs.
  unfold numel. cbn [fold_right]. lia.
Qed.

Lemma shallow_forward_fits (n : ShallowActorCritic.net) (input_shape : list nat)
  (actor_shape critic_shape : nat) (x : tensor) (lead : list nat) :
  ShallowActorCritic.built n input_shape actor_shape critic_shape ->
  shape x = lead ++ [nth 0 input_shape 0%nat] ->
  exists mu_out sigma_out critic_out,
    ShallowActorCritic.forward n x = Ok (mu_out, sigma_out, critic_out) /\
    shape mu_out = lead ++ [actor_shape] /\
    shape sigma_out = lead ++ [actor_shape] /\
    shape critic_out = lead ++ [critic_shape] /\
    well_formed mu_out /\ well_formed sigma_out /\ well_formed critic_out.
Proof.
  intros (B1 & B2 & Bmu & Bsg & Bcr) Hs.
  unfold ShallowActorCritic.forward.
  destruct (apply_linear_fits _ _ _ x lead B1 Hs) as (h1 & -> & Hs1 & _).
  cbn [rbind].
  destruct (apply_linear_fits _ _ _ (relu h1) lead B2 Hs1) as (h2 & -> & Hs2 & _).
  cbn [rbind].
  destruct (apply_linear_fits _ _ _ (relu h2) lead Bmu Hs2) as (m & -> & Hm & Wm).
  destruct (apply_linear_fits _ _ _ (relu h2) lead Bsg Hs2) as (sg & -> & Hsg & Wsg).
  destruct (apply_linear_fits _ _ _ (relu h2) lead Bcr Hs2) as (cr & -> & Hcr & Wcr).
  cbn [rbind]. exists m, sg, cr. repeat split; assumption.
Qed.

(** X22.  A shallow network built for observations of input_shape[0]
    entries maps a tensor of shape (..., input_shape[0]) to two heads of
    shape (..., actor_shape) and a value of shape (..., critic_shape), all
    well formed; a tensor whose last dimension is anything else is a
    run-time error. *)
Theorem shallow_forward_shapes (n : ShallowActorCritic.net) (input_shape : list nat)
  (actor_shape critic_shape : nat) (x : tensor) (lead : list nat) (last : nat) :
  ShallowActorCritic.built n input_shape actor_shape critic_shape ->
  shape x = lead ++ [last] ->
  (last = nth 0 input_shape 0%nat ->
   exists mu_out sigma_out critic_out,
     ShallowActorCritic.forward n x = Ok (mu_out, sigma_out, critic_out) /\
     shape mu_out = lead ++ [actor_shape] /\
     shape sigma_out = lead ++ [actor_shape] /\
     shape critic_out = lead ++ [critic_shape] /\
     well_formed mu_out /\ well_formed sigma_out /\ well_formed critic_out) /\
  (last <> nth 0 input_shape 0%nat ->
   ShallowActorCritic.forward n x = Raise RuntimeError).
Proof.
  intros Hb Hs. split.
  - intros ->. now apply (shallow_forward_fits n input_shape).
  - intros Hne. destruct Hb as (B1 & _). unfold ShallowActorCritic.forward.
    now rewrite (apply_linear_mismatch _ _ _ _ x lead B1 Hs Hne).
Qed.

(** X23.  Adapter and shallow network together: an observation vector of
    input_shape[0] entries, preprocessed, goes through a network built for
    that input shape, and each head comes back as one row of actor_shape
    entries, the value as one row of critic_shape entries. *)
Theorem shallow_network_on_vector_observation
  (n : ShallowActorCritic.net) (n0 actor_shape critic_shape : nat)
  (o : ndarray R) :
  ShallowActorCritic.built n [n0] actor_shape critic_shape ->
  shape o = [n0] ->
  exists x mu_out sigma_out critic_out,
    preproc_obs (NdArray o) = Ok x /\
    ShallowActorCritic.forward n x = Ok (mu_out, sigma_out, critic_out) /\
    shape mu_out = [1%nat; actor_shape] /\ length (data mu_out) = actor_shape /\
    shape sigma_out = [1%nat; actor_shape] /\
    length (data sigma_out) = actor_shape /\
    shape critic_out = [1%nat; critic_shape] /\
    length (data critic_out) = critic_shape.
Proof.
  intros Hb Hs. rewrite preproc_obs_ndarray.
  unfold rank. rewrite Hs. cbn [length Nat.eqb].
  destruct (shallow_forward_fits n [n0] actor_shape critic_shape
              (unsqueeze0 o) [1%nat] Hb)
    as (m & sg & cr & Hf & Hm & Hsg & Hcr & Wm & Wsg & Wcr).
  { cbn [unsqueeze0 shape]. now rewrite Hs. }
  exists (unsqueeze0 o), m, sg, cr. split; [reflexivity |].
  split; [exact Hf |]. cbn [app] in Hm, Hsg, Hcr.
  repeat split; try assumption; now apply well_formed_row_length.
Qed.

Lemma flattened_features : numel [32%nat; 78%nat; 78%nat] = (32 * 78 * 78)%nat.
Proof. unfold numel. cbn [fold_right]. rewrite Nat.mul_1_r. apply Nat.mul_assoc. Qed.

Lemma deep_forward_fits (n : DeepActorCritic.net) (input_shape : list nat)
  (actor_shape critic_shape : nat) (x : tensor) (b : nat) :
  DeepActorCritic.built n input_shape actor_shape critic_shape ->
  shape x = [b; nth 2 input_shape 0%nat; 84%nat; 84%nat] -> (1 <= b)%nat ->
  exists mu_out sigma_out critic_out,
    DeepActorCritic.forward n x = Ok (mu_out, sigma_out, critic_out) /\
    shape mu_out = [b; actor_shape] /\ shape sigma_out = [b; actor_shape] /\
    shape critic_out = [b; critic_shape] /\
    well_formed mu_out /\ well_formed sigma_out /\ well_formed critic_out.
Proof.
  intros (B1 & B2 & B3 & B4 & Bmu & Bsg & Bcr) Hs Hb.
  unfold DeepActorCritic.forward.
  destruct (apply_conv_fits _ _ _ _ x b 84 84 B1 Hs) as (c1 & -> & Hs1 & _);
    [lia | lia |].
  cbn [rbind]. change (84 - 3 + 1)%nat with 82%nat in Hs1.
  destruct (apply_conv_fits _ _ _ _ (relu c1) b 82 82 B2 Hs1) as (c2 & -> & Hs2 & _);
    [lia | lia |].
  cbn [rbind]. change (82 - 3 + 1)%nat with 80%nat in Hs2.
  destruct (apply_conv_fits _ _ _ _ (relu c2) b 80 80 B3 Hs2) as (c3 & -> & Hs3 & _);
    [lia | lia |].
  cbn [rbind]. change (80 - 3 + 1)%nat with 78%nat in Hs3.
  unfold view_rows. rewrite relu_shape, Hs3.
  assert (Eb : (b =? 0)%nat = false) by (apply Nat.eqb_neq; lia).
  rewrite Eb. cbn [rbind]. rewrite flattened_features.
  destruct (apply_linear_fits _ _ _
              (mk_array [b; (32 * 78 * 78)%nat] (data (relu c3))) [b] B4 eq_refl)
    as (h4 & -> & Hs4 & _).
  cbn [rbind].
  destruct (apply_linear_fits _ _ _ (relu h4) [b] Bmu Hs4) as (m & -> & Hm & Wm).
  destruct (apply_linear_fits _ _ _ (relu h4) [b] Bsg Hs4) as (sg & -> & Hsg & Wsg).
  destruct (apply_linear_fits _ _ _ (relu h4) [b] Bcr Hs4) as (cr & -> & Hcr & Wcr).
  cbn [rbind]. exists m, sg, cr. repeat split; assumption.
Qed.

(** X24.  A deep network built for input_shape takes batches of 84 x 84
    images with input_shape[2] channels: the three convolutions shrink the
    images to 82, 80 and 78 pixels a side, the 32 * 78 * 78 features of each
    image feed the fully connected layer, and the heads come back with one
    row per image.  Images with another number of channels are a run-time
    error, and so are images of at least 7 x 7 pixels whose size after the
    convolutions is not 78 x 78. *)
Theorem deep_forward_shapes (n : DeepActorCritic.net) (input_shape : list nat)
  (actor_shape critic_shape : nat) (x : tensor) (b ch h w : nat) :
  DeepActorCritic.built n input_shape actor_shape critic_shape ->
  shape x = [b; ch; h; w] -> (1 <= b)%nat ->
  (ch = nth 2 input_shape 0%nat -> h = 84%nat -> w = 84%nat ->
   exists mu_out sigma_out critic_out,
     DeepActorCritic.forward n x = Ok (mu_out, sigma_out, critic_out) /\
     shape mu_out = [b; actor_shape] /\ shape sigma_out = [b; actor_shape] /\
     shape critic_out = [b; critic_shape] /\
     well_formed mu_out /\ well_formed sigma_out /\ well_formed critic_out) /\
  (ch <> nth 2 input_shape 0%nat ->
   DeepActorCritic.forward n x = Raise RuntimeError) /\
  (ch = nth 2 input_shape 0%nat -> (7 <= h)%nat -> (7 <= w)%nat ->
   ((h - 6) * (w - 6) <> 78 * 78)%nat ->
   DeepActorCritic.forward n x = Raise RuntimeError).
Proof.
  intros Hbuilt Hs Hb. split; [| split].
  - intros -> -> ->. now apply (deep_forward_fits n input_shape).
  - intros Hc. destruct Hbuilt as (B1 & _). unfold DeepActorCritic.forward.
    now rewrite (apply_conv_channels _ _ _ _ x b ch h w B1 Hs Hc).
  - intros -> Hh Hw Hsize.
    destruct Hbuilt as (B1 & B2 & B3 & B4 & _).
    unfold DeepActorCritic.forward.
    destruct (apply_conv_fits _ _ _ _ x b h w B1 Hs) as (c1 & -> & Hs1 & _);
      [lia | lia |].
    cbn [rbind].
    destruct (apply_conv_fits _ _ _ _ (relu c1) b _ _ B2 Hs1) as (c2 & -> & Hs2 & _);
      [lia | lia |].
    cbn [rbind].
    destruct (apply_conv_fits _ _ _ _ (relu c2) b _ _ B3 Hs2) as (c3 & -> & Hs3 & _);
      [lia | lia |].
    cbn [rbind]. unfold view_rows. rewrite relu_shape, Hs3.
    assert (Eb : (b =? 0)%nat = false) by (apply Nat.eqb_neq; lia).
    rewrite Eb. cbn [rbind].
    match goal with
    | |- rbind (apply_linear ?l ?t) _ = _ =>
        assert (Hmis : apply_linear l t = Raise RuntimeError);
        [| now rewrite Hmis]
    end.
    eapply apply_linear_mismatch with (lead := [b]);
      [exact B4 | cbn [shape app]; reflexivity |].
    unfold numel. cbn [fold_right].
    replace (h - 3 + 1 - 3 + 1 - 3 + 1)%nat with (h - 6)%nat by lia.
    replace (w - 3 + 1 - 3 + 1 - 3 + 1)%nat with (w - 6)%nat by lia.
    rewrite Nat.mul_1_r. intros E. apply Hsize.
    rewrite <- Nat.mul_assoc in E. now apply Nat.mul_cancel_l in E.
Qed.

(** X25.  Adapter and deep network together: every observation of rank
    three, whatever its size, is preprocessed to a 3 x 84 x 84 image, which
    a deep network built for three channels accepts, returning each head as
    one row of actor_shape entries; a network built for any other number of
    channels raises a run-time error on it. *)
Theorem deep_network_on_preprocessed_frame
  (n : DeepActorCritic.net) (input_shape : list nat)
  (actor_shape critic_shape : nat) (o : ndarray R) :
  DeepActorCritic.built n input_shape actor_shape critic_shape ->
  rank o = 3%nat ->
  exists x,
    preproc_obs (NdArray o) = Ok x /\
    (nth 2 input_shape 0%nat = 3%nat ->
     exists mu_out sigma_out critic_out,
       DeepActorCritic.forward n x = Ok (mu_out, sigma_out, critic_out) /\
       shape mu_out = [1%nat; actor_shape] /\
       length (data mu_out) = actor_shape /\
       shape sigma_out = [1%nat; actor_shape] /\
       length (data sigma_out) = actor_shape /\
       shape critic_out = [1%nat; critic_shape] /\
       length (data critic_out) = critic_shape) /\
    (nth 2 input_shape 0%nat <> 3%nat ->
     DeepActorCritic.forward n x = Raise RuntimeError).
Proof.
  intros Hbuilt Hr. rewrite preproc_obs_ndarray.
  apply Nat.eqb_eq in Hr. rewrite Hr.
  eexists. split; [reflexivity |].
  set (x := unsqueeze0 _).
  assert (Hs : shape x = [1%nat; 3%nat; 84%nat; 84%nat])
    by (subst x; cbn [unsqueeze0 shape]; now rewrite np_resize_shape).
  split.
  - intros H3.
    assert (Hs' : shape x = [1%nat; nth 2 input_shape 0%nat; 84%nat; 84%nat])
      by (rewrite H3; exact Hs).
    destruct (deep_forward_fits n input_shape actor_shape critic_shape x 1
                Hbuilt Hs' (le_n 1))
      as (m & sg & cr & Hf & Hm & Hsg & Hcr & Wm & Wsg & Wcr).
    exists m, sg, cr. split; [exact Hf |].
    repeat split; try assumption; now apply well_formed_row_length.
  - intros H3. destruct Hbuilt as (B1 & _). unfold DeepActorCritic.forward.
    rewrite (apply_conv_channels _ _ _ _ x 1 3 84 84 B1 Hs); [reflexivity |].
    intros E. now apply H3.
Qed.

(** ** The script and the constructor of the agent *)

Section Script.
Context {C : Collaborators}.
Variable gym_make : string -> EnvState.
Variable new_deep_network : list nat -> nat -> Params.
Variable new_shallow_network : list nat -> nat -> Params.

(** X26.  The block under [__main__] never reaches its loop: it constructs
    the agent from three arguments, the constructor has four parameters,
    and the call is a type error, whatever the environment, the shapes and
    the parameters are.  So is every positional call of the constructor
    with a number of arguments other than four. *)
Theorem main_script_fails_at_construction
  (env_name : string) (observation_shape : list nat) (action_shape : nat)
  (params : agent_params) (w : list scalar_event) (g : Rng) (passes : nat) :
  main_script gym_make new_deep_network new_shallow_network env_name
    observation_shape action_shape params w g passes
  = Raise TypeError /\
  (forall (module_step : nat) (args : list pyarg),
     length args <> 4%nat ->
     call_positional 4
       (DeepActorCriticAgent_init gym_make new_deep_network new_shallow_network
          w module_step g) args
     = Raise TypeError).
Proof.
  split; [reflexivity |].
  intros module_step args Hlen. unfold call_positional.
  apply Nat.eqb_neq in Hlen. now rewrite Hlen.
Qed.


End Script.


(** ** Networks with zero weights *)

Lemma zero_linear_built (n_in n_out : nat) :
  linear_built (zero_linear n_in n_out) n_in n_out.
Proof.
  unfold linear_built, zero_linear. cbn [in_features out_features weight bias].
  rewrite !repeat_length. repeat split.
  apply Forall_forall. intros row Hrow. apply repeat_spec in Hrow. subst row.
  apply repeat_length.
Qed.

Lemma zero_conv_built (n_in n_out k : nat) :
  conv_built (zero_conv n_in n_out k) n_in n_out k.
Proof.
  unfold conv_built, zero_conv.
  cbn [in_channels out_channels kernel_size conv_weight conv_bias].
  rewrite !repeat_length. repeat split.
Qed.

Lemma zero_shallow_built (n0 actor_shape critic_shape : nat) :
  ShallowActorCritic.built (zero_shallow n0 actor_shape critic_shape) [n0]
    actor_shape critic_shape.
Proof.
  unfold ShallowActorCritic.built, zero_shallow.
  cbn [ShallowActorCritic.layer1 ShallowActorCritic.layer2
       ShallowActorCritic.actor_mu ShallowActorCritic.actor_sigma
       ShallowActorCritic.critic nth].
  repeat split; apply zero_linear_built.
Qed.

Lemma zero_deep_built (h w channels actor_shape critic_shape : nat) :
  DeepActorCritic.built (zero_deep channels actor_shape critic_shape)
    [h; w; channels] actor_shape critic_shape.
Proof.
  unfold DeepActorCritic.built, zero_deep.
  cbn [DeepActorCritic.layer1 DeepActorCritic.layer2 DeepActorCritic.layer3
       DeepActorCritic.layer4 DeepActorCritic.actor_mu
       DeepActorCritic.actor_sigma DeepActorCritic.critic nth].
  split; [apply zero_conv_built |]. split; [apply zero_conv_built |].
  split; [apply zero_conv_built |].
  repeat split; apply zero_linear_built.
Qed.

Lemma shallow_forward_shapes_witness :
  exists mu_out sigma_out critic_out,
    ShallowActorCritic.forward (zero_shallow 2 3 1)
      (mk_array [1%nat; 2%nat] [0.5; 0.25])
    = Ok (mu_out, sigma_out, critic_out) /\
    shape mu_out = [1%nat; 3%nat] /\ shape critic_out = [1%nat; 1%nat].
Proof.
  destruct (shallow_forward_shapes (zero_shallow 2 3 1) [2%nat] 3 1
              (mk_array [1%nat; 2%nat] [0.5; 0.25]) [1%nat] 2
              (zero_shallow_built 2 3 1) eq_refl) as [Hok _].
  destruct (Hok eq_refl) as (m & sg & cr & Hf & Hm & _ & Hcr & _).
  exists m, sg, cr. split; [exact Hf |]. split; [exact Hm | exact Hcr].
Defined.

Lemma shallow_network_on_vector_observation_witness :
  exists x mu_out sigma_out critic_out,
    preproc_obs (NdArray (mk_array [2%nat] [0.5; 0.25])) = Ok x /\
    ShallowActorCritic.forward (zero_shallow 2 3 1) x
    = Ok (mu_out, sigma_out, critic_out) /\
    length (data mu_out) = 3%nat /\ length (data critic_out) = 1%nat.
Proof.
  destruct (shallow_network_on_vector_observation (zero_shallow 2 3 1) 2 3 1
              (mk_array [2%nat] [0.5; 0.25]) (zero_shallow_built 2 3 1) eq_refl)
    as (x & m & sg & cr & Hx & Hf & _ & Hm & _ & _ & _ & Hcr).
  exists x, m, sg, cr. split; [exact Hx |]. split; [exact Hf |].
  split; [exact Hm | exact Hcr].
Defined.

Lemma deep_forward_shapes_witness :
  exists mu_out sigma_out critic_out,
    DeepActorCritic.forward (zero_deep 3 3 1)
      (mk_array [1%nat; 3%nat; 84%nat; 84%nat] (data blank_frame))
    = Ok (mu_out, sigma_out, critic_out) /\
    shape mu_out = [1%nat; 3%nat].
Proof.
  destruct (deep_forward_shapes (zero_deep 3 3 1) [84%nat; 84%nat; 3%nat] 3 1
              (mk_array [1%nat; 3%nat; 84%nat; 84%nat] (data blank_frame))
              1 3 84 84 (zero_deep_built 84 84 3 3 1) eq_refl (le_n 1))
    as [Hok _].
  destruct (Hok eq_refl eq_refl eq_refl) as (m & sg & cr & Hf & Hm & _).
  exists m, sg, cr. split; [exact Hf | exact Hm].
Defined.

Lemma deep_network_on_preprocessed_frame_witness :
  exists x mu_out sigma_out critic_out,
    preproc_obs (NdArray blank_frame) = Ok x /\
    DeepActorCritic.forward (zero_deep 3 3 1) x
    = Ok (mu_out, sigma_out, critic_out) /\
    length (data mu_out) = 3%nat.
Proof.
  destruct (deep_network_on_preprocessed_frame (zero_deep 3 3 1)
              [84%nat; 84%nat; 3%nat] 3 1 blank_frame
              (zero_deep_built 84 84 3 3 1) eq_refl)
    as (x & Hx & Hok & _).
  destruct (Hok eq_refl) as (m & sg & cr & Hf & _ & Hm & _).
  exists x, m, sg, cr. split; [exact Hx |]. split; [exact Hf | exact Hm].
Defined.
